(** * DrugAuth: batch identity and custody ledger

    A shallow embedding of the two custody ledgers of the repository:

    - [DrugAuth], the Solidity contract (registerDrug, transferOwnership,
      deactivateDrug, assignRole, getUserRole, getDrugHistory,
      getDrugsByOwner, totalDrugs), together with the parts of the
      OpenZeppelin 4.x base contracts it inherits and calls (ERC721,
      ERC721Enumerable, Ownable, Counters);
    - [MemStorage], the in-memory store of the HTTP server
      (server/storage.ts) and the two mutating routes of server/routes.ts.

    Storage mappings are finite maps read with a default (the zero value of
    Solidity), [uint256] and [address] are [N] with the wrap-around of
    unchecked arithmetic written out, and a call is a state-and-error
    computation whose failure leaves the storage it started from.

    The transactions considered are the four state-changing functions the
    contract declares (registerDrug, transferOwnership, deactivateDrug,
    assignRole), the operation set of the specification; the entry points
    it inherits from ERC721 and Ownable (transferFrom, approve, ...) are
    not. *)

From stdpp Require Import base numbers option list gmap strings sorting.
From Stdlib Require Import NArith Lia Ascii.

Local Open Scope string_scope.
Local Open Scope list_scope.
Local Open Scope N_scope.

(** ** Solidity values and calls *)

Module Evm.

Abbreviation address := N (only parsing).
Abbreviation uint256 := N (only parsing).

Definition modulus : N := 2 ^ 256.

(** [unchecked { x += 1 }] and [unchecked { x -= 1 }] on a uint256. *)
Definition unchecked_incr (x : N) : N := (x + 1) mod modulus.
Definition unchecked_decr (x : N) : N := (x + modulus - 1) mod modulus.

(** A failed call: [require(c, reason)] reverts with its reason string,
    checked arithmetic panics with a code (0x11 on under- or overflow). *)
Inductive Error : Type :=
| Revert (reason : string)
| Panic (code : N).

Inductive Result (A : Type) : Type :=
| Ok (a : A)
| Err (e : Error).
Arguments Ok {A} a.
Arguments Err {A} e.

(** What a call sees of the transaction: [msg.sender], [block.timestamp],
    and the answer of [msg.sender] to the ERC721 receiver check that
    [_safeMint] performs on it ([true] for an externally owned account, for
    a contract the result of its [onERC721Received]; the callback is
    modelled by its answer only). *)
Record Env : Type := {
  msg_sender : address;
  block_timestamp : uint256;
  onERC721Received_ok : bool
}.

(** The zero value of a Solidity type, which a mapping holds at every key
    never written. *)
Class Zero (V : Type) : Type := zero : V.
#[export] Instance N_zero : Zero N := 0.
#[export] Instance bool_zero : Zero bool := false.
#[export] Instance string_zero : Zero string := "".
#[export] Instance list_zero {A} : Zero (list A) := [].

(** [m[k]] read from storage. *)
Definition slot `{Countable K} `{Zero V} (m : gmap K V) (k : K) : V :=
  default zero (m !! k).
#[global] Arguments slot : simpl never.
#[global] Arguments zero : simpl never.
#[global] Arguments N_zero : simpl never.
#[global] Arguments bool_zero : simpl never.
#[global] Arguments string_zero : simpl never.
#[global] Arguments list_zero : simpl never.

Section Monad.
Context {S : Type}.

Definition M (A : Type) : Type := S → Result (A * S).

Definition ret {A} (a : A) : M A := λ s, Ok (a, s).

Definition bind {A B} (m : M A) (k : A → M B) : M B :=
  λ s, match m s with
       | Ok (a, s') => k a s'
       | Err e => Err e
       end.

Definition gets {A} (f : S → A) : M A := λ s, Ok (f s, s).
Definition modify (f : S → S) : M unit := λ s, Ok (tt, f s).
Definition fail {A} (e : Error) : M A := λ _, Err e.

Definition require (c : bool) (reason : string) : M unit :=
  if c then ret tt else fail (Revert reason).

(** [for (uint256 i = 0; i < n; i++) out[i] = f(i)] *)
Fixpoint for_each {A} (f : N → M A) (ixs : list N) : M (list A) :=
  match ixs with
  | [] => ret []
  | i :: ixs' =>
      bind (f i) (λ a, bind (for_each f ixs') (λ l, ret (a :: l)))
  end.

(** The storage a call leaves behind: its own on success, the one it
    started from when it reverts. *)
Definition state_after {A} (s : S) (r : Result (A * S)) : S :=
  match r with
  | Ok (_, s') => s'
  | Err _ => s
  end.

Definition succeeded {A} (r : Result (A * S)) : bool :=
  match r with Ok _ => true | Err _ => false end.

End Monad.

Arguments M : clear implicits.

End Evm.

Import Evm.

Notation "'let*' x ':=' c1 'in' c2" := (bind c1 (λ x, c2))
  (at level 10, x name, c1 at level 100, c2 at level 200, only parsing).
Notation "m !!. k" := (slot m k) (at level 20).
Notation "c1 >>> c2" := (bind c1 (λ _, c2))
  (at level 100, right associativity, only parsing).

(** ** The contract *)

Module DrugAuth.

Module Drug.
Record t : Type := mk {
  batchId : string;
  drugName : string;
  manufacturer : string;
  expiryDate : uint256;
  ipfsHash : string;
  currentOwner : address;
  timestamp : uint256;
  isActive : bool
}.

(** The value a mapping returns for a key never written. *)
Definition zero : t := mk "" "" "" 0 "" 0 0 false.

Definition set_currentOwner (a : address) (d : t) : t :=
  mk (batchId d) (drugName d) (manufacturer d) (expiryDate d)
     (ipfsHash d) a (timestamp d) (isActive d).

Definition set_isActive (b : bool) (d : t) : t :=
  mk (batchId d) (drugName d) (manufacturer d) (expiryDate d)
     (ipfsHash d) (currentOwner d) (timestamp d) b.
End Drug.

Module TransferEvent.
Record t : Type := mk {
  from : address;
  to : address;
  timestamp : uint256;
  eventType : string
}.
End TransferEvent.

#[export] Instance Drug_zero : Zero Drug.t := Drug.zero.
#[global] Arguments Drug_zero : simpl never.

(** Events the contract emits. *)
Inductive Log : Type :=
| Transfer (from to : address) (tokenId : uint256)
| DrugRegistered (tokenId : uint256) (batchId : string) (owner : address)
    (drugName manufacturer : string)
| OwnershipTransferred (tokenId : uint256) (from to : address)
    (eventType : string)
| RoleAssigned (user : address) (role : string)
| OwnerChanged (previousOwner newOwner : address).

(** Modelled from the spec: the storage of the base contracts ERC721 and
    ERC721Enumerable, which the contract imports from OpenZeppelin and the
    repository does not contain: the owner of each batch id, and the owner
    index (identity to the batch ids it owns) with each owner's count, laid
    out as OpenZeppelin 4.x does. *)
Record Token : Type := mkToken {
  _owners : gmap N N;
  _balances : gmap N N;
  _tokenApprovals : gmap N N;
  _ownedTokens : gmap (N * N) N;
  _ownedTokensIndex : gmap N N;
  _allTokens : list N;
  _allTokensIndex : gmap N N
}.

(** The storage of the contract: its own variables ([_tokenIdCounter] by
    its value, which Counters increments unchecked), the storage of the
    ERC721 bases, the owner of Ownable, and the events emitted so far. *)
Record State : Type := mkState {
  _tokenIdCounter : uint256;
  drugs : gmap N Drug.t;
  batchIdToTokenId : gmap string N;
  drugHistory : gmap N (list TransferEvent.t);
  userRoles : gmap N string;
  erc721 : Token;
  _owner : address;
  emitted : list Log
}.

Definition set_owners f (k : Token) : Token :=
  mkToken (f (_owners k)) (_balances k) (_tokenApprovals k) (_ownedTokens k)
    (_ownedTokensIndex k) (_allTokens k) (_allTokensIndex k).
Definition set_balances f (k : Token) : Token :=
  mkToken (_owners k) (f (_balances k)) (_tokenApprovals k) (_ownedTokens k)
    (_ownedTokensIndex k) (_allTokens k) (_allTokensIndex k).
Definition set_tokenApprovals f (k : Token) : Token :=
  mkToken (_owners k) (_balances k) (f (_tokenApprovals k)) (_ownedTokens k)
    (_ownedTokensIndex k) (_allTokens k) (_allTokensIndex k).
Definition set_ownedTokens f (k : Token) : Token :=
  mkToken (_owners k) (_balances k) (_tokenApprovals k) (f (_ownedTokens k))
    (_ownedTokensIndex k) (_allTokens k) (_allTokensIndex k).
Definition set_ownedTokensIndex f (k : Token) : Token :=
  mkToken (_owners k) (_balances k) (_tokenApprovals k) (_ownedTokens k)
    (f (_ownedTokensIndex k)) (_allTokens k) (_allTokensIndex k).
Definition set_allTokens f (k : Token) : Token :=
  mkToken (_owners k) (_balances k) (_tokenApprovals k) (_ownedTokens k)
    (_ownedTokensIndex k) (f (_allTokens k)) (_allTokensIndex k).
Definition set_allTokensIndex f (k : Token) : Token :=
  mkToken (_owners k) (_balances k) (_tokenApprovals k) (_ownedTokens k)
    (_ownedTokensIndex k) (_allTokens k) (f (_allTokensIndex k)).

Definition set_tokenIdCounter f (s : State) : State :=
  mkState (f (_tokenIdCounter s)) (drugs s) (batchIdToTokenId s)
    (drugHistory s) (userRoles s) (erc721 s) (_owner s) (emitted s).
Definition set_drugs f (s : State) : State :=
  mkState (_tokenIdCounter s) (f (drugs s)) (batchIdToTokenId s)
    (drugHistory s) (userRoles s) (erc721 s) (_owner s) (emitted s).
Definition set_batchIdToTokenId f (s : State) : State :=
  mkState (_tokenIdCounter s) (drugs s) (f (batchIdToTokenId s))
    (drugHistory s) (userRoles s) (erc721 s) (_owner s) (emitted s).
Definition set_drugHistory f (s : State) : State :=
  mkState (_tokenIdCounter s) (drugs s) (batchIdToTokenId s)
    (f (drugHistory s)) (userRoles s) (erc721 s) (_owner s) (emitted s).
Definition set_userRoles f (s : State) : State :=
  mkState (_tokenIdCounter s) (drugs s) (batchIdToTokenId s)
    (drugHistory s) (f (userRoles s)) (erc721 s) (_owner s) (emitted s).
Definition set_erc721 f (s : State) : State :=
  mkState (_tokenIdCounter s) (drugs s) (batchIdToTokenId s)
    (drugHistory s) (userRoles s) (f (erc721 s)) (_owner s) (emitted s).
Definition set_emitted f (s : State) : State :=
  mkState (_tokenIdCounter s) (drugs s) (batchIdToTokenId s)
    (drugHistory s) (userRoles s) (erc721 s) (_owner s) (f (emitted s)).

Definition emit (l : Log) : M State unit :=
  modify (set_emitted (λ ls, (ls ++ [l])%list)).

(** *** ERC721, the functions the contract calls

    The base contracts are imports (@openzeppelin/contracts) and not part
    of the repository. They are written here after OpenZeppelin 4.x, the
    release line the contract's imports (Counters, the four-argument
    _beforeTokenTransfer) and its tests (the revert reason of Ownable)
    fix. *)

(** Modelled from the spec: [_ownerOf] of ERC721, absent from the
    repository; the owner of a batch id, the zero address when there is
    none. *)
Definition _ownerOf (tokenId : uint256) : M State address :=
  gets (λ s, _owners (erc721 s) !!. tokenId).

(** Modelled from the spec: [_exists] of ERC721, absent from the
    repository; a batch exists when its id has an owner. *)
Definition _exists (tokenId : uint256) : M State bool :=
  let* o := _ownerOf tokenId in ret (negb (o =? 0)).

(** Modelled from the spec: [ownerOf] of ERC721, absent from the
    repository; asking for the owner of a batch that does not exist fails
    (the NotFoundError of the specification). *)
Definition ownerOf (tokenId : uint256) : M State address :=
  let* o := _ownerOf tokenId in
  require (negb (o =? 0)) "ERC721: invalid token ID" >>>
  ret o.

(** Modelled from the spec: [balanceOf] of ERC721, absent from the
    repository; the number of batches in the owner index of an identity. *)
Definition balanceOf (owner : address) : M State uint256 :=
  require (negb (owner =? 0)) "ERC721: address zero is not a valid owner" >>>
  gets (λ s, _balances (erc721 s) !!. owner).

(** *** ERC721Enumerable *)

(** Modelled from the spec: [tokenOfOwnerByIndex] of ERC721Enumerable,
    absent from the repository; the entry of the owner index of an identity
    at a position. *)
Definition tokenOfOwnerByIndex (owner : address) (index : uint256)
  : M State uint256 :=
  let* b := balanceOf owner in
  require (index <? b) "ERC721Enumerable: owner index out of bounds" >>>
  gets (λ s, _ownedTokens (erc721 s) !!. (owner, index)).

(** Modelled from the spec: [_addTokenToOwnerEnumeration] of
    ERC721Enumerable, absent from the repository; adds the batch to the new
    owner's entries of the owner index, at the end. *)
Definition _addTokenToOwnerEnumeration (to : address) (tokenId : uint256)
  : M State unit :=
  let* length := balanceOf to in
  modify (set_erc721 (set_ownedTokens <[(to, length) := tokenId]>)) >>>
  modify (set_erc721 (set_ownedTokensIndex <[tokenId := length]>)).

(** Modelled from the spec: [_addTokenToAllTokensEnumeration] of
    ERC721Enumerable, absent from the repository; records a new batch id in
    the list of all ids. *)
Definition _addTokenToAllTokensEnumeration (tokenId : uint256)
  : M State unit :=
  let* n := gets (λ s, N.of_nat (List.length (_allTokens (erc721 s)))) in
  modify (set_erc721 (set_allTokensIndex <[tokenId := n]>)) >>>
  modify (set_erc721 (set_allTokens (λ l, (l ++ [tokenId])%list))).

(** Modelled from the spec: [_removeTokenFromOwnerEnumeration] of
    ERC721Enumerable, absent from the repository; removes the batch from
    the old owner's entries of the owner index, moving the last entry into
    its place. *)
Definition _removeTokenFromOwnerEnumeration (from : address)
    (tokenId : uint256) : M State unit :=
  let* b := balanceOf from in
  (* checked subtraction: balanceOf(from) - 1 *)
  (if b =? 0 then fail (Panic 17) else ret tt) >>>
  let lastTokenIndex := b - 1 in
  let* tokenIndex := gets (λ s, _ownedTokensIndex (erc721 s) !!. tokenId) in
  (if negb (tokenIndex =? lastTokenIndex) then
     let* lastTokenId := gets (λ s, _ownedTokens (erc721 s) !!. (from, lastTokenIndex)) in
     modify
       (set_erc721 (set_ownedTokens <[(from, tokenIndex) := lastTokenId]>)) >>>
     modify
       (set_erc721 (set_ownedTokensIndex <[lastTokenId := tokenIndex]>))
   else ret tt) >>>
  modify (set_erc721 (set_ownedTokensIndex (delete tokenId))) >>>
  modify (set_erc721 (set_ownedTokens (delete (from, lastTokenIndex)))).

(** Modelled from the spec: [_removeTokenFromAllTokensEnumeration] of
    ERC721Enumerable, absent from the repository; only a transfer to the
    zero address reaches it, and the contract makes none. *)
Definition _removeTokenFromAllTokensEnumeration (tokenId : uint256)
  : M State unit :=
  let* len := gets (λ s, N.of_nat (List.length (_allTokens (erc721 s)))) in
  (* checked subtraction: _allTokens.length - 1 *)
  (if len =? 0 then fail (Panic 17) else ret tt) >>>
  let lastTokenIndex := len - 1 in
  let* tokenIndex := gets (λ s, _allTokensIndex (erc721 s) !!. tokenId) in
  let* lastTokenId := gets (λ s, default 0 (_allTokens (erc721 s) !! N.to_nat lastTokenIndex)) in
  (* array index check of _allTokens[tokenIndex] *)
  (if tokenIndex <? len then ret tt else fail (Panic 50)) >>>
  modify (set_erc721 (set_allTokens <[N.to_nat tokenIndex := lastTokenId]>)) >>>
  modify (set_erc721 (set_allTokensIndex <[lastTokenId := tokenIndex]>)) >>>
  modify (set_erc721 (set_allTokensIndex (delete tokenId))) >>>
  modify (set_erc721 (set_allTokens (λ l, take (N.to_nat lastTokenIndex) l))).

(** Modelled from the spec: [_beforeTokenTransfer] of ERC721Enumerable,
    absent from the repository, for a single token ([batchSize = 1]): the
    update of the owner index (remove from the old owner's entries, add to
    the new owner's). The contract's own override only calls [super]. *)
Definition _beforeTokenTransfer (from to : address) (tokenId : uint256)
  : M State unit :=
  (if from =? 0 then _addTokenToAllTokensEnumeration tokenId
   else if negb (from =? to) then _removeTokenFromOwnerEnumeration from tokenId
   else ret tt) >>>
  (if to =? 0 then _removeTokenFromAllTokensEnumeration tokenId
   else if negb (to =? from) then _addTokenToOwnerEnumeration to tokenId
   else ret tt).

(** Modelled from the spec: [_mint] of ERC721, absent from the repository;
    gives a batch id that has no owner yet to its first owner. *)
Definition _mint (to : address) (tokenId : uint256) : M State unit :=
  require (negb (to =? 0)) "ERC721: mint to the zero address" >>>
  let* e := _exists tokenId in
  require (negb e) "ERC721: token already minted" >>>
  _beforeTokenTransfer 0 to tokenId >>>
  let* e' := _exists tokenId in
  require (negb e') "ERC721: token already minted" >>>
  modify (set_erc721 (set_balances
    (λ b, <[to := unchecked_incr (b !!. to)]> b))) >>>
  modify (set_erc721 (set_owners <[tokenId := to]>)) >>>
  emit (Transfer 0 to tokenId).

(** Modelled from the spec: [_safeMint] of ERC721, absent from the
    repository; [_mint] followed by the receiver check on the new owner. *)
Definition _safeMint (env : Env) (to : address) (tokenId : uint256)
  : M State unit :=
  _mint to tokenId >>>
  require (onERC721Received_ok env)
    "ERC721: transfer to non ERC721Receiver implementer".

(** Modelled from the spec: [_transfer] of ERC721, absent from the
    repository; moves the batch id from its owner to a new, non-zero owner
    and updates the owner index and both counts. *)
Definition _transfer (from to : address) (tokenId : uint256)
  : M State unit :=
  let* o := ownerOf tokenId in
  require (o =? from) "ERC721: transfer from incorrect owner" >>>
  require (negb (to =? 0)) "ERC721: transfer to the zero address" >>>
  _beforeTokenTransfer from to tokenId >>>
  let* o' := ownerOf tokenId in
  require (o' =? from) "ERC721: transfer from incorrect owner" >>>
  modify (set_erc721 (set_tokenApprovals (delete tokenId))) >>>
  modify (set_erc721 (set_balances
    (λ b, <[from := unchecked_decr (b !!. from)]> b))) >>>
  modify (set_erc721 (set_balances
    (λ b, <[to := unchecked_incr (b !!. to)]> b))) >>>
  modify (set_erc721 (set_owners <[tokenId := to]>)) >>>
  emit (Transfer from to tokenId).

(** *** Ownable *)

(** Modelled from the spec: [owner] of Ownable, absent from the repository;
    the admin, initially the deployer. *)
Definition owner : M State address := gets _owner.

(** Modelled from the spec: the modifier [onlyOwner] of Ownable, absent
    from the repository; only the admin passes (AuthorizationError
    otherwise). *)
Definition onlyOwner (env : Env) : M State unit :=
  let* o := owner in
  require (o =? msg_sender env) "Ownable: caller is not the owner".

(** *** DrugAuth *)

Definition onlyTokenOwner (env : Env) (tokenId : uint256) : M State unit :=
  let* o := ownerOf tokenId in
  require (o =? msg_sender env) "Not the token owner".

(** The state after deployment by [deployer]: the Ownable constructor
    makes the deployer the contract owner (its event is [OwnerChanged]
    here), the contract's constructor gives it the role "manufacturer". *)
Definition constructor (deployer : address) : State :=
  mkState 0 ∅ ∅ ∅ {[deployer := "manufacturer"]}
    (mkToken ∅ ∅ ∅ ∅ ∅ [] ∅) deployer [OwnerChanged 0 deployer].

Definition registerDrug (env : Env) (batchId drugName manufacturer : string)
    (expiryDate : uint256) (ipfsHash : string) : M State uint256 :=
  require (0 <? N.of_nat (String.length batchId))
    "Batch ID cannot be empty" >>>
  require (0 <? N.of_nat (String.length drugName))
    "Drug name cannot be empty" >>>
  require (0 <? N.of_nat (String.length manufacturer))
    "Manufacturer cannot be empty" >>>
  require (block_timestamp env <? expiryDate)
    "Expiry date must be in the future" >>>
  let* known := gets (λ s, batchIdToTokenId s !!. batchId) in
  require (known =? 0) "Batch ID already exists" >>>
  modify (set_tokenIdCounter unchecked_incr) >>>
  let* tokenId := gets _tokenIdCounter in
  _safeMint env (msg_sender env) tokenId >>>
  modify (set_drugs <[tokenId :=
    Drug.mk batchId drugName manufacturer expiryDate ipfsHash
      (msg_sender env) (block_timestamp env) true]>) >>>
  modify (set_batchIdToTokenId <[batchId := tokenId]>) >>>
  (* Record the initial manufacturing event *)
  modify (set_drugHistory (λ h, <[tokenId := (h !!. tokenId) ++
    [TransferEvent.mk 0 (msg_sender env) (block_timestamp env)
       "manufacture"]]> h)) >>>
  emit (DrugRegistered tokenId batchId (msg_sender env) drugName
          manufacturer) >>>
  ret tokenId.

Definition transferOwnership (env : Env) (tokenId : uint256) (to : address)
    (eventType : string) : M State unit :=
  onlyTokenOwner env tokenId >>>
  require (negb (to =? 0)) "Cannot transfer to zero address" >>>
  let* o := ownerOf tokenId in
  require (negb (to =? o)) "Cannot transfer to current owner" >>>
  let* d := gets (λ s, drugs s !!. tokenId) in
  require (Drug.isActive d) "Drug is not active" >>>
  require (block_timestamp env <? Drug.expiryDate d) "Drug has expired" >>>
  let* from := ownerOf tokenId in
  _transfer from to tokenId >>>
  modify (set_drugs (λ m,
    <[tokenId := Drug.set_currentOwner to (m !!. tokenId)]> m)) >>>
  (* Record the transfer event *)
  modify (set_drugHistory (λ h, <[tokenId := (h !!. tokenId) ++
    [TransferEvent.mk from to (block_timestamp env) eventType]]> h)) >>>
  emit (OwnershipTransferred tokenId from to eventType).

Definition verifyDrug (tokenId : uint256) : M State Drug.t :=
  let* e := _exists tokenId in
  require e "Drug does not exist" >>>
  gets (λ s, drugs s !!. tokenId).

Definition verifyDrugByBatchId (batchId : string) : M State Drug.t :=
  let* tokenId := gets (λ s, batchIdToTokenId s !!. batchId) in
  require (negb (tokenId =? 0)) "Batch ID does not exist" >>>
  gets (λ s, drugs s !!. tokenId).

Definition getDrugHistory (tokenId : uint256)
  : M State (list TransferEvent.t) :=
  let* e := _exists tokenId in
  require e "Drug does not exist" >>>
  gets (λ s, drugHistory s !!. tokenId).

Definition deactivateDrug (env : Env) (tokenId : uint256) : M State unit :=
  onlyTokenOwner env tokenId >>>
  modify (set_drugs (λ m,
    <[tokenId := Drug.set_isActive false (m !!. tokenId)]> m)).

Definition assignRole (env : Env) (user : address) (role : string)
  : M State unit :=
  onlyOwner env >>>
  modify (set_userRoles <[user := role]>) >>>
  emit (RoleAssigned user role).

Definition getUserRole (user : address) : M State string :=
  gets (λ s, userRoles s !!. user).

Definition getDrugsByOwner (owner : address) : M State (list uint256) :=
  let* balance := balanceOf owner in
  for_each (tokenOfOwnerByIndex owner)
    (N.of_nat <$> seq 0 (N.to_nat balance)).

Definition totalDrugs : M State uint256 := gets _tokenIdCounter.

(** *** Error kinds

    The taxonomy of the specification applied to the revert reasons of the
    contract and of the base contracts it calls. *)

Inductive ErrorKind : Type :=
| ValidationError
| ConflictError
| AuthorizationError
| NotFoundError
| StateError.

#[export] Instance ErrorKind_eq_dec : EqDecision ErrorKind.
Proof. solve_decision. Defined.

Definition reasons : list (string * ErrorKind) :=
  [ ("Batch ID cannot be empty", ValidationError);
    ("Drug name cannot be empty", ValidationError);
    ("Manufacturer cannot be empty", ValidationError);
    ("Expiry date must be in the future", ValidationError);
    ("Batch ID already exists", ConflictError);
    ("Not the token owner", AuthorizationError);
    ("Ownable: caller is not the owner", AuthorizationError);
    ("Cannot transfer to zero address", ValidationError);
    ("Cannot transfer to current owner", ValidationError);
    ("Drug is not active", StateError);
    ("Drug has expired", StateError);
    ("ERC721: invalid token ID", NotFoundError);
    ("Drug does not exist", NotFoundError);
    ("Batch ID does not exist", NotFoundError) ].

Fixpoint assoc {A} (k : string) (l : list (string * A)) : option A :=
  match l with
  | [] => None
  | (k', a) :: l' => if String.eqb k k' then Some a else assoc k l'
  end.

Definition error_kind (e : Error) : option ErrorKind :=
  match e with
  | Revert reason => assoc reason reasons
  | Panic _ => None
  end.

(** The kind of failure of a call, [None] when it succeeds or fails
    outside the taxonomy. *)
Definition fails_with {A} (r : Result (A * State)) : option ErrorKind :=
  match r with
  | Ok _ => None
  | Err e => error_kind e
  end.

(** *** Transactions *)

Inductive Call : Type :=
| RegisterDrug (batchId drugName manufacturer : string)
    (expiryDate : uint256) (ipfsHash : string)
| TransferOwnership (tokenId : uint256) (to : address) (eventType : string)
| DeactivateDrug (tokenId : uint256)
| AssignRole (user : address) (role : string).

Definition exec (env : Env) (c : Call) (s : State) : State :=
  match c with
  | RegisterDrug b n m e h => state_after s (registerDrug env b n m e h s)
  | TransferOwnership t to ty => state_after s (transferOwnership env t to ty s)
  | DeactivateDrug t => state_after s (deactivateDrug env t s)
  | AssignRole u r => state_after s (assignRole env u r s)
  end.

(** States of a deployed contract: the constructor's, and those any
    sequence of transactions leads to. *)
Inductive reachable : State → Prop :=
| reachable_constructor deployer : reachable (constructor deployer)
| reachable_exec env c s : reachable s → reachable (exec env c s).

(** *** The transfer preconditions as the specification orders them *)

Inductive Precondition : Type :=
| BatchExists
| RequesterIsOwner
| NewOwnerDiffers
| NewOwnerNonEmpty
| BatchActive
| BatchNotExpired.

(** The error kind the specification gives each failed precondition. *)
Definition precondition_kind (p : Precondition) : ErrorKind :=
  match p with
  | BatchExists => NotFoundError
  | RequesterIsOwner => AuthorizationError
  | NewOwnerDiffers => ValidationError
  | NewOwnerNonEmpty => ValidationError
  | BatchActive => StateError
  | BatchNotExpired => StateError
  end.

(** The revert reason of the contract for each of them. *)
Definition precondition_reason (p : Precondition) : string :=
  match p with
  | BatchExists => "ERC721: invalid token ID"
  | RequesterIsOwner => "Not the token owner"
  | NewOwnerDiffers => "Cannot transfer to current owner"
  | NewOwnerNonEmpty => "Cannot transfer to zero address"
  | BatchActive => "Drug is not active"
  | BatchNotExpired => "Drug has expired"
  end.

(** The first precondition that fails, checking them in the order of the
    specification (1 to 6); [None] when all hold. This follows the text of
    the specification, not the order of the [require]s of the contract. *)
Definition first_failing_precondition (env : Env) (tokenId : uint256)
    (newOwner : address) (s : State) : option Precondition :=
  let currentOwner := _owners (erc721 s) !!. tokenId in
  let d := drugs s !!. tokenId in
  if currentOwner =? 0 then Some BatchExists
  else if negb (msg_sender env =? currentOwner) then Some RequesterIsOwner
  else if newOwner =? currentOwner then Some NewOwnerDiffers
  else if newOwner =? 0 then Some NewOwnerNonEmpty
  else if negb (Drug.isActive d) then Some BatchActive
  else if negb (block_timestamp env <? Drug.expiryDate d)
       then Some BatchNotExpired
  else None.

(** *** Predicates on the storage *)

(** The batch [t] exists: its token has an owner. *)
Definition registered (s : State) (t : uint256) : Prop :=
  _owners (erc721 s) !!. t ≠ 0.

(** The audit log and the record of every batch agree: an unregistered
    id has no log; a registered one has a record whose owner is the token
    owner, and a log that starts with the manufacture event from the zero
    address, has no other entry from the zero address, and ends with an
    entry to the owner. *)
Definition custody_inv (s : State) : Prop :=
  ∀ t,
    (¬ registered s t → drugHistory s !!. t = [])
    ∧ (registered s t →
         is_Some (drugs s !! t)
         ∧ Drug.currentOwner (drugs s !!. t) = _owners (erc721 s) !!. t
         ∧ ∃ e rest,
             drugHistory s !!. t = e :: rest
             ∧ TransferEvent.from e = 0
             ∧ TransferEvent.eventType e = "manufacture"
             ∧ Forall (λ e', TransferEvent.from e' ≠ 0) rest
             ∧ TransferEvent.to <$> last (e :: rest)
               = Some (_owners (erc721 s) !!. t)).

(** The owner enumeration of ERC721Enumerable is consistent with the
    owners: ids are those handed out by the counter, which has not
    exhausted uint256; every token sits in its owner's enumeration at its
    recorded index, and every enumerated slot holds a token of that owner
    whose recorded index is the slot. *)
Definition enumerated (s : State) : Prop :=
  let k := erc721 s in
  _tokenIdCounter s + 1 < modulus
  ∧ (∀ t, registered s t → 1 ≤ t ≤ _tokenIdCounter s)
  ∧ (∀ t, registered s t →
       _ownedTokensIndex k !!. t < _balances k !!. (_owners k !!. t)
       ∧ _ownedTokens k !!. (_owners k !!. t, _ownedTokensIndex k !!. t) = t)
  ∧ (∀ o i, o ≠ 0 → i < _balances k !!. o →
       _owners k !!. (_ownedTokens k !!. (o, i)) = o
       ∧ _ownedTokensIndex k !!. (_ownedTokens k !!. (o, i)) = i).

(** Between [s] and [s'] the batch [t] stayed registered and inactive, with
    the same log, recorded owner and token owner. *)
Definition frozen (s s' : State) (t : uint256) : Prop :=
  registered s' t
  ∧ Drug.isActive (drugs s' !!. t) = false
  ∧ drugHistory s' !!. t = drugHistory s !!. t
  ∧ Drug.currentOwner (drugs s' !!. t) = Drug.currentOwner (drugs s !!. t)
  ∧ _owners (erc721 s') !!. t = _owners (erc721 s) !!. t.

(** A sequence of transactions, each with its environment. *)
Definition run (cs : list (Env * Call)) (s : State) : State :=
  foldl (λ s' ec, exec ec.1 ec.2 s') s cs.

(** States of a deployed contract in which [u] was never given a role:
    [u] is not the deployer and no [assignRole] named it. *)
Inductive unassigned (u : address) : State → Prop :=
| unassigned_constructor deployer :
    deployer ≠ u → unassigned u (constructor deployer)
| unassigned_exec env c s :
    unassigned u s → (∀ role, c ≠ AssignRole u role) →
    unassigned u (exec env c s).

(** *** Further predicates on the storage *)

(** Ids are handed out in sequence and the counter has not exhausted
    uint256: the registered ids are exactly 1 to [_tokenIdCounter]. *)
Definition sequential (s : State) : Prop :=
  _tokenIdCounter s + 1 < modulus
  ∧ ∀ t, registered s t ↔ 1 ≤ t ≤ _tokenIdCounter s.

(** [batchIdToTokenId] and the records index each other: the code of a
    registered batch leads back to its id, and a code that leads to a
    non-zero id leads to a registered batch carrying that code. *)
Definition code_indexed (s : State) : Prop :=
  (∀ t, registered s t →
     batchIdToTokenId s !!. Drug.batchId (drugs s !!. t) = t)
  ∧ (∀ b, batchIdToTokenId s !!. b ≠ 0 →
       registered s (batchIdToTokenId s !!. b)
       ∧ Drug.batchId (drugs s !!. (batchIdToTokenId s !!. b)) = b).

(** The record of every registered batch passed the checks of
    registerDrug: code, name and manufacturer are not empty and the expiry
    is after the time of registration, which is the time of the first
    entry of its log. *)
Definition records_valid (s : State) : Prop :=
  ∀ t, registered s t →
    let d := drugs s !!. t in
    Drug.batchId d ≠ "" ∧ Drug.drugName d ≠ "" ∧ Drug.manufacturer d ≠ ""
    ∧ Drug.timestamp d < Drug.expiryDate d
    ∧ TransferEvent.timestamp <$> head (drugHistory s !!. t)
      = Some (Drug.timestamp d).

(** Two records of the same batch: they differ at most in owner and
    activity. *)
Definition same_batch (d d' : Drug.t) : Prop :=
  Drug.batchId d = Drug.batchId d'
  ∧ Drug.drugName d = Drug.drugName d'
  ∧ Drug.manufacturer d = Drug.manufacturer d'
  ∧ Drug.expiryDate d = Drug.expiryDate d'
  ∧ Drug.ipfsHash d = Drug.ipfsHash d'
  ∧ Drug.timestamp d = Drug.timestamp d'.

(** A log is a chain of custody from [prev]: each entry starts where the
    one before it ended, goes to another, non-zero address. *)
Fixpoint chained (prev : address) (h : list TransferEvent.t) : Prop :=
  match h with
  | [] => True
  | e :: h' =>
      TransferEvent.from e = prev
      ∧ TransferEvent.to e ≠ 0
      ∧ TransferEvent.to e ≠ prev
      ∧ chained (TransferEvent.to e) h'
  end.

(** Where a chain from [prev] ends. *)
Definition chain_end (prev : address) (h : list TransferEvent.t) : address :=
  from_option TransferEvent.to prev (last h).

Definition custody_chained (s : State) : Prop :=
  ∀ t, registered s t →
    chained 0 (drugHistory s !!. t)
    ∧ chain_end 0 (drugHistory s !!. t) = _owners (erc721 s) !!. t.

(** The block times of a sequence of transactions do not go back, starting
    from [now]. *)
Fixpoint clocked (now : uint256) (cs : list (Env * Call)) : Prop :=
  match cs with
  | [] => True
  | ec :: cs' =>
      now ≤ block_timestamp ec.1 ∧ clocked (block_timestamp ec.1) cs'
  end.

(** The entries of every log are in the order of their times, none later
    than [now]. *)
Definition logs_in_time (now : uint256) (s : State) : Prop :=
  ∀ t,
    StronglySorted
      (λ e e', TransferEvent.timestamp e ≤ TransferEvent.timestamp e')
      (drugHistory s !!. t)
    ∧ Forall (λ e, TransferEvent.timestamp e ≤ now) (drugHistory s !!. t).

(** The events a call emits when it succeeds, in the storage it starts
    from. *)
Definition notifications (env : Env) (c : Call) (s : State) : list Log :=
  match c with
  | RegisterDrug b n m e h =>
      let tokenId := unchecked_incr (_tokenIdCounter s) in
      [Transfer 0 (msg_sender env) tokenId;
       DrugRegistered tokenId b (msg_sender env) n m]
  | TransferOwnership t to ty =>
      let from := _owners (erc721 s) !!. t in
      [Transfer from to t; OwnershipTransferred t from to ty]
  | DeactivateDrug t => []
  | AssignRole u r => [RoleAssigned u r]
  end.

(** Whether a call goes through. *)
Definition accepted (env : Env) (c : Call) (s : State) : bool :=
  match c with
  | RegisterDrug b n m e h => succeeded (registerDrug env b n m e h s)
  | TransferOwnership t to ty => succeeded (transferOwnership env t to ty s)
  | DeactivateDrug t => succeeded (deactivateDrug env t s)
  | AssignRole u r => succeeded (assignRole env u r s)
  end.

Definition is_register (c : Call) : bool :=
  match c with RegisterDrug _ _ _ _ _ => true | _ => false end.

(** The number of registrations that go through in a sequence of
    transactions started in [s]. *)
Fixpoint registrations (cs : list (Env * Call)) (s : State) : nat :=
  match cs with
  | [] => 0
  | ec :: cs' =>
      (if is_register ec.2 && accepted ec.1 ec.2 s then 1 else 0)%nat
      + registrations cs' (exec ec.1 ec.2 s)
  end.

(** *** The scenario of the contract's tests

    The deployer (address 1) registers batch BTC-2024-001; addresses 2 to
    5 are the other signers. *)

Definition signer (a : address) : Env := Build_Env a 1700000000 true.

Definition register_sample : Call :=
  RegisterDrug "BTC-2024-001" "Paracetamol 500mg" "PharmaCorp Ltd."
    1731536000 "QmTestHash123456789".

Definition deployed : State := constructor 1.
Definition registered_once : State := exec (signer 1) register_sample deployed.
Definition transferred_once : State :=
  exec (signer 1) (TransferOwnership 1 2 "transfer") registered_once.
Definition deactivated : State :=
  exec (signer 2) (DeactivateDrug 1) transferred_once.

End DrugAuth.

(** ** The in-memory store of the server *)

Module MemStorage.

(** Strings are sequences of code units below 256 (wallet addresses and
    status words are ASCII); dates are milliseconds since the epoch. *)

(** [String.prototype.toLowerCase] on such code units: A-Z and the
    Latin-1 capitals (0xC0-0xDE, the multiplication sign 0xD7 apart) move
    up by 32. *)
Definition is_upper (n : N) : bool :=
  ((65 <=? n) && (n <=? 90))
  || ((192 <=? n) && (n <=? 222) && negb (n =? 215)).

(** The lower-case code of a code. *)
Definition lower_code (n : N) : N := if is_upper n then n + 32 else n.

Definition lower_char (c : ascii) : ascii :=
  let n := N_of_ascii c in
  if is_upper n then ascii_of_N (n + 32) else c.

Fixpoint toLowerCase (s : string) : string :=
  match s with
  | EmptyString => EmptyString
  | String c s' => String (lower_char c) (toLowerCase s')
  end.

(** Two code units that are the same letter: equal, or one the capital
    of the other. *)
Definition same_letter (c d : ascii) : Prop :=
  c = d
  ∨ (is_upper (N_of_ascii c) = true ∧ N_of_ascii d = N_of_ascii c + 32)
  ∨ (is_upper (N_of_ascii d) = true ∧ N_of_ascii c = N_of_ascii d + 32).

(** Equality of two strings up to letter case. *)
Inductive eq_upto_case : string → string → Prop :=
| eq_upto_case_empty : eq_upto_case EmptyString EmptyString
| eq_upto_case_char c d s t :
    same_letter c d → eq_upto_case s t →
    eq_upto_case (String c s) (String d t).

Record DrugBatch : Type := mkDrugBatch {
  id : string;
  batchId : string;
  drugName : string;
  manufacturer : string;
  manufacturingDate : N;
  expiryDate : N;
  currentOwner : string;
  currentOwnerAddress : string;
  status : string;
  ipfsHash : option string;
  contractAddress : option string;
  tokenId : option N;
  createdAt : N;
  updatedAt : N
}.

Record InsertDrugBatch : Type := mkInsertDrugBatch {
  ins_batchId : string;
  ins_drugName : string;
  ins_manufacturer : string;
  ins_manufacturingDate : N;
  ins_expiryDate : N;
  ins_currentOwner : string;
  ins_currentOwnerAddress : string;
  ins_status : option string;
  ins_ipfsHash : option string;
  ins_contractAddress : option string;
  ins_tokenId : option N
}.

Module Event.
Record t : Type := mk {
  id : string;
  batchId : string;
  fromOwner : option string;
  toOwner : string;
  fromOwnerAddress : option string;
  toOwnerAddress : string;
  eventType : string;
  transactionHash : option string;
  blockNumber : option N;
  timestamp : N
}.
End Event.

Record InsertSupplyChainEvent : Type := mkInsertSupplyChainEvent {
  ev_batchId : string;
  ev_fromOwner : option string;
  ev_toOwner : string;
  ev_fromOwnerAddress : option string;
  ev_toOwnerAddress : string;
  ev_eventType : string;
  ev_transactionHash : option string;
  ev_blockNumber : option N
}.

(** The fields [updateDrugBatch] is called with ([Partial<DrugBatch>]
    restricted to those the server ever passes). *)
Record Updates : Type := mkUpdates {
  upd_currentOwner : option string;
  upd_currentOwnerAddress : option string;
  upd_status : option string
}.

(** A JavaScript [Map] with string keys: entries in insertion order, a
    [set] on a present key replaces its value in place. *)
Fixpoint map_set {V} (k : string) (v : V) (m : list (string * V))
  : list (string * V) :=
  match m with
  | [] => [(k, v)]
  | (k', v') :: m' =>
      if String.eqb k k' then (k, v) :: m' else (k', v') :: map_set k v m'
  end.

Fixpoint map_get {V} (k : string) (m : list (string * V)) : option V :=
  match m with
  | [] => None
  | (k', v') :: m' => if String.eqb k k' then Some v' else map_get k m'
  end.

Definition values {V} (m : list (string * V)) : list V := m.*2.

(** [x || d] on an optional string: the empty string is falsy too. *)
Definition or_default (x : option string) (d : string) : string :=
  match x with
  | Some s => if String.eqb s "" then d else s
  | None => d
  end.

Definition or_null (x : option string) : option string :=
  match x with
  | Some s => if String.eqb s "" then None else Some s
  | None => None
  end.

Definition or_null_number (x : option N) : option N :=
  match x with
  | Some n => if n =? 0 then None else Some n
  | None => None
  end.

(** [Array.prototype.sort] is stable; [before a b] says the comparator
    puts [a] strictly before [b]. *)
Section Sort.
Context {A : Type} (before : A → A → bool).

Fixpoint insert_sorted (x : A) (l : list A) : list A :=
  match l with
  | [] => [x]
  | y :: l' => if before y x then y :: insert_sorted x l' else x :: y :: l'
  end.

Definition sort (l : list A) : list A := foldr insert_sorted [] l.
End Sort.

Record Storage : Type := mkStorage {
  drugBatches : list (string * DrugBatch);
  supplyChainEvents : list (string * Event.t)
}.

Definition empty : Storage := mkStorage [] [].

Definition getDrugBatchById (i : string) (st : Storage) : option DrugBatch :=
  map_get i (drugBatches st).

Definition getDrugBatchByBatchId (b : string) (st : Storage)
  : option DrugBatch :=
  List.find (λ batch, String.eqb (batchId batch) b)
    (values (drugBatches st)).

Definition getDrugBatchesByOwner (ownerAddress : string) (st : Storage)
  : list DrugBatch :=
  sort (λ a b, createdAt b <? createdAt a)
    (List.filter
       (λ batch, String.eqb (toLowerCase (currentOwnerAddress batch))
                   (toLowerCase ownerAddress))
       (values (drugBatches st))).

(** [uuid] is the identifier [randomUUID()] returns, [now] the date. *)
Definition createDrugBatch (uuid : string) (now : N) (i : InsertDrugBatch)
    (st : Storage) : DrugBatch * Storage :=
  let drugBatch :=
    mkDrugBatch uuid (ins_batchId i) (ins_drugName i) (ins_manufacturer i)
      (ins_manufacturingDate i) (ins_expiryDate i) (ins_currentOwner i)
      (ins_currentOwnerAddress i) (or_default (ins_status i) "manufactured")
      (ins_ipfsHash i) (ins_contractAddress i) (ins_tokenId i) now now in
  (drugBatch,
   mkStorage (map_set uuid drugBatch (drugBatches st))
     (supplyChainEvents st)).

Definition apply_updates (now : N) (u : Updates) (b : DrugBatch)
  : DrugBatch :=
  mkDrugBatch (id b) (batchId b) (drugName b) (manufacturer b)
    (manufacturingDate b) (expiryDate b)
    (default (currentOwner b) (upd_currentOwner u))
    (default (currentOwnerAddress b) (upd_currentOwnerAddress u))
    (default (status b) (upd_status u))
    (ipfsHash b) (contractAddress b) (tokenId b) (createdAt b) now.

(** [None] when the batch is not found (the method throws). *)
Definition updateDrugBatch (now : N) (i : string) (u : Updates)
    (st : Storage) : option (DrugBatch * Storage) :=
  match map_get i (drugBatches st) with
  | None => None
  | Some existing =>
      let updated := apply_updates now u existing in
      Some (updated,
            mkStorage (map_set i updated (drugBatches st))
              (supplyChainEvents st))
  end.

Definition getSupplyChainEventsByBatchId (b : string) (st : Storage)
  : list Event.t :=
  sort (λ x y, Event.timestamp x <? Event.timestamp y)
    (List.filter (λ e, String.eqb (Event.batchId e) b)
       (values (supplyChainEvents st))).

Definition createSupplyChainEvent (uuid : string) (now : N)
    (i : InsertSupplyChainEvent) (st : Storage) : Event.t * Storage :=
  let event :=
    Event.mk uuid (ev_batchId i) (or_null (ev_fromOwner i)) (ev_toOwner i)
      (or_null (ev_fromOwnerAddress i)) (ev_toOwnerAddress i)
      (ev_eventType i) (or_null (ev_transactionHash i))
      (or_null_number (ev_blockNumber i)) now in
  (event,
   mkStorage (drugBatches st) (map_set uuid event (supplyChainEvents st))).

Record DashboardStats : Type := mkDashboardStats {
  totalBatches : nat;
  activeTransfers : nat;
  verifiedDrugs : nat;
  gasUsed : string
}.

Definition getDashboardStats (st : Storage) : DashboardStats :=
  let totalBatches := List.length (drugBatches st) in
  let activeTransfers :=
    List.length (List.filter (λ batch, String.eqb (status batch) "in_transit")
              (values (drugBatches st))) in
  let verifiedDrugs :=
    List.length (List.filter (λ batch, negb (String.eqb (status batch) "expired"))
              (values (drugBatches st))) in
  mkDashboardStats totalBatches activeTransfers verifiedDrugs "0.0234".

(** *** The two mutating routes of server/routes.ts *)

Inductive Response (A : Type) : Type :=
| Json (code : N) (body : A)
| Failure (code : N) (message : string).
Arguments Json {A} code body.
Arguments Failure {A} code message.

(** POST /api/drug-batches, from the point where the body has passed
    [insertDrugBatchSchema.parse]. *)
Definition post_drug_batch (uuid1 uuid2 : string) (now : N)
    (validatedData : InsertDrugBatch) (st : Storage)
  : Response (DrugBatch * Event.t) * Storage :=
  let '(drugBatch, st1) := createDrugBatch uuid1 now validatedData st in
  let '(manufacturingEvent, st2) :=
    createSupplyChainEvent uuid2 now
      (mkInsertSupplyChainEvent (batchId drugBatch) None
         (currentOwner drugBatch) None (currentOwnerAddress drugBatch)
         "manufacture" None None) st1 in
  (Json 201 (drugBatch, manufacturingEvent), st2).

Record TransferBody : Type := mkTransferBody {
  body_batchId : string;
  body_newOwner : string;
  body_newOwnerAddress : string;
  body_eventType : string;
  body_transactionHash : option string
}.

(** POST /api/drug-batches/transfer; an absent field of the body is the
    empty string, which fails the same test. *)
Definition post_transfer (uuid : string) (now : N) (body : TransferBody)
    (st : Storage) : Response (DrugBatch * Event.t) * Storage :=
  if String.eqb (body_batchId body) "" || String.eqb (body_newOwner body) ""
     || String.eqb (body_newOwnerAddress body) ""
     || String.eqb (body_eventType body) ""
  then (Failure 400 "Missing required fields", st)
  else
    match getDrugBatchByBatchId (body_batchId body) st with
    | None => (Failure 404 "Drug batch not found", st)
    | Some currentDrug =>
        match
          updateDrugBatch now (id currentDrug)
            (mkUpdates (Some (body_newOwner body))
               (Some (body_newOwnerAddress body))
               (Some (if String.eqb (body_eventType body) "deliver"
                      then "delivered" else "in_transit"))) st
        with
        | None => (Failure 500 "Drug batch not found", st)
        | Some (updatedDrug, st1) =>
            let '(transferEvent, st2) :=
              createSupplyChainEvent uuid now
                (mkInsertSupplyChainEvent (body_batchId body)
                   (Some (currentOwner currentDrug)) (body_newOwner body)
                   (Some (currentOwnerAddress currentDrug))
                   (body_newOwnerAddress body) (body_eventType body)
                   (body_transactionHash body) None) st1 in
            (Json 200 (updatedDrug, transferEvent), st2)
        end
    end.

(** *** The dashboard counts as the specification words them *)

(** The most recent custody event of a batch. *)
Definition most_recent_event (b : string) (st : Storage) : option Event.t :=
  last (getSupplyChainEventsByBatchId b st).

(** Batches whose most recent event is a non-terminal transfer kind. *)
Definition spec_activeTransfersInProgress (st : Storage) : nat :=
  List.length (List.filter
    (λ batch,
       match most_recent_event (batchId batch) st with
       | Some e => String.eqb (Event.eventType e) "transfer"
                   || String.eqb (Event.eventType e) "distribute"
       | None => false
       end)
    (values (drugBatches st))).

(** Batches whose expiry is strictly after [now]. *)
Definition spec_nonExpiredCount (now : N) (st : Storage) : nat :=
  List.length (List.filter (λ batch, now <? expiryDate batch)
            (values (drugBatches st))).

(** *** Sample requests *)

Definition sample_batch (expiry : N) (ownerAddress : string)
  : InsertDrugBatch :=
  mkInsertDrugBatch "BTC-2024-001" "Paracetamol 500mg" "PharmaCorp Ltd."
    1000 expiry "PharmaCorp" ownerAddress None None None None.

(** A batch registered at time 5000 whose expiry (2000) has passed. *)
Definition stale_store : Storage :=
  (post_drug_batch "id-1" "ev-1" 5000 (sample_batch 2000 "0xAbC1") empty).2.

Definition stale_batch : DrugBatch :=
  (createDrugBatch "id-1" 5000 (sample_batch 2000 "0xAbC1") empty).1.

(** The same batch after a custody event of type "verify". *)
Definition verified_store : Storage :=
  (post_transfer "ev-2" 6000
     (mkTransferBody "BTC-2024-001" "Pharmacy" "0xDeF2" "verify" None)
     stale_store).2.

End MemStorage.

Import DrugAuth.

(** ** Evaluating calls *)

Ltac unfold_calls :=
  unfold registerDrug, transferOwnership, deactivateDrug, assignRole,
    getUserRole, getDrugHistory, getDrugsByOwner, verifyDrug,
    verifyDrugByBatchId, totalDrugs, onlyTokenOwner, onlyOwner, owner,
    _safeMint, _mint, _transfer, _beforeTokenTransfer,
    _addTokenToOwnerEnumeration, _addTokenToAllTokensEnumeration,
    _removeTokenFromOwnerEnumeration, tokenOfOwnerByIndex, balanceOf,
    ownerOf, _exists, _ownerOf, emit in *.

Ltac unfold_monad :=
  unfold bind, require, gets, modify, ret, fail in *.

Ltac simpl_state :=
  cbv beta iota delta
    [set_owners set_balances set_tokenApprovals set_ownedTokens
     set_ownedTokensIndex set_allTokens set_allTokensIndex
     set_tokenIdCounter set_drugs set_batchIdToTokenId set_drugHistory
     set_userRoles set_erc721 set_emitted
     _owners _balances _tokenApprovals _ownedTokens _ownedTokensIndex
     _allTokens _allTokensIndex _tokenIdCounter drugs batchIdToTokenId
     drugHistory userRoles erc721 _owner emitted] in *.

Ltac case_if :=
  match goal with
  | |- context [if ?b then _ else _] => destruct b eqn:?
  | H : context [if ?b then _ else _] |- _ => destruct b eqn:?
  end.

Ltac bool_to_prop :=
  repeat match goal with
  | H : negb _ = true |- _ => apply negb_true_iff in H
  | H : negb _ = false |- _ => apply negb_false_iff in H
  | H : (_ =? _) = true |- _ => apply N.eqb_eq in H
  | H : (_ =? _) = false |- _ => apply N.eqb_neq in H
  | H : (_ <? _) = true |- _ => apply N.ltb_lt in H
  | H : (_ <? _) = false |- _ => apply N.ltb_ge in H
  end.

Module DrugAuthFacts.

(** *** Reading storage *)

Section Slot.
Context `{Countable K} `{Zero V}.
Implicit Types (m : gmap K V) (k : K) (v : V).

Lemma slot_insert_eq m k v : <[k := v]> m !!. k = v.
Proof. unfold slot. by rewrite lookup_insert_eq. Qed.

Lemma slot_insert_ne m k k' v : k ≠ k' → <[k := v]> m !!. k' = m !!. k'.
Proof. intros. unfold slot. by rewrite lookup_insert_ne. Qed.

Lemma slot_delete_eq m k : delete k m !!. k = zero.
Proof. unfold slot. by rewrite lookup_delete_eq. Qed.

Lemma slot_delete_ne m k k' : k ≠ k' → delete k m !!. k' = m !!. k'.
Proof. intros. unfold slot. by rewrite lookup_delete_ne. Qed.

Lemma slot_empty k : (∅ : gmap K V) !!. k = zero.
Proof. unfold slot. by rewrite lookup_empty. Qed.

End Slot.

(** *** What a successful call has done *)

Lemma registerDrug_ok env b n m e h s id s' :
  registerDrug env b n m e h s = Ok (id, s') →
  id = unchecked_incr (_tokenIdCounter s)
  ∧ msg_sender env ≠ 0
  ∧ _owners (erc721 s) !!. id = 0
  ∧ batchIdToTokenId s !!. b = 0
  ∧ _tokenIdCounter s' = id
  ∧ drugs s' = <[id := Drug.mk b n m e h (msg_sender env)
                         (block_timestamp env) true]> (drugs s)
  ∧ batchIdToTokenId s' = <[b := id]> (batchIdToTokenId s)
  ∧ drugHistory s' =
      <[id := drugHistory s !!. id ++
              [TransferEvent.mk 0 (msg_sender env) (block_timestamp env)
                 "manufacture"]]> (drugHistory s)
  ∧ userRoles s' = userRoles s
  ∧ _owner s' = _owner s
  ∧ _owners (erc721 s') = <[id := msg_sender env]> (_owners (erc721 s))
  ∧ emitted s' = emitted s ++
      [Transfer 0 (msg_sender env) id;
       DrugRegistered id b (msg_sender env) n m].
Proof.
  unfold_calls. unfold_monad. cbn.
  repeat (case_if; cbn in *; try discriminate).
  intros [= <- <-]. cbn. bool_to_prop.
  rewrite <- app_assoc. done.
Qed.

Lemma transferOwnership_ok env t to ty s u s' :
  transferOwnership env t to ty s = Ok (u, s') →
  let from := _owners (erc721 s) !!. t in
  from ≠ 0 ∧ from = msg_sender env ∧ to ≠ 0 ∧ to ≠ from
  ∧ Drug.isActive (drugs s !!. t) = true
  ∧ block_timestamp env < Drug.expiryDate (drugs s !!. t)
  ∧ _tokenIdCounter s' = _tokenIdCounter s
  ∧ drugs s' = <[t := Drug.set_currentOwner to (drugs s !!. t)]> (drugs s)
  ∧ batchIdToTokenId s' = batchIdToTokenId s
  ∧ drugHistory s' =
      <[t := drugHistory s !!. t ++
             [TransferEvent.mk from to (block_timestamp env) ty]]>
        (drugHistory s)
  ∧ userRoles s' = userRoles s
  ∧ _owner s' = _owner s
  ∧ _owners (erc721 s') = <[t := to]> (_owners (erc721 s))
  ∧ emitted s' = emitted s ++
      [Transfer from to t; OwnershipTransferred t from to ty].
Proof.
  unfold_calls. unfold_monad. cbn.
  repeat (case_if; cbn in *; try discriminate);
    intros [= <- <-]; destruct s as [? ? ? ? ? [] ? ?]; simpl_state;
    bool_to_prop; rewrite <- ?app_assoc; try done; try lia.
Qed.

Lemma deactivateDrug_ok env t s u s' :
  deactivateDrug env t s = Ok (u, s') →
  _owners (erc721 s) !!. t ≠ 0
  ∧ _owners (erc721 s) !!. t = msg_sender env
  ∧ s' = set_drugs
           (λ m, <[t := Drug.set_isActive false (m !!. t)]> m) s.
Proof.
  unfold_calls. unfold_monad. cbn.
  repeat (case_if; cbn in *; try discriminate).
  intros [= <- <-]. bool_to_prop. done.
Qed.

Lemma assignRole_ok env user role s u s' :
  assignRole env user role s = Ok (u, s') →
  _owner s = msg_sender env
  ∧ s' = set_emitted (λ ls, ls ++ [RoleAssigned user role])
           (set_userRoles <[user := role]> s).
Proof.
  unfold_calls. unfold_monad. cbn.
  repeat (case_if; cbn in *; try discriminate).
  intros [= <- <-]. bool_to_prop. done.
Qed.

(** A call either fails, leaving the storage as it was, or succeeds. *)
Lemma exec_cases env c s :
  exec env c s = s
  ∨ match c with
    | RegisterDrug b n m e h =>
        ∃ id, registerDrug env b n m e h s = Ok (id, exec env c s)
    | TransferOwnership t to ty =>
        transferOwnership env t to ty s = Ok (tt, exec env c s)
    | DeactivateDrug t => deactivateDrug env t s = Ok (tt, exec env c s)
    | AssignRole u r => assignRole env u r s = Ok (tt, exec env c s)
    end.
Proof.
  destruct c; cbn;
    match goal with
    | |- context [state_after s ?r] => destruct r as [[[] ?]|] eqn:E
    end; cbn; eauto.
Qed.

(** *** The custody invariant *)

Lemma custody_inv_constructor deployer : custody_inv (constructor deployer).
Proof.
  intros t. unfold registered. cbn. rewrite !slot_empty. split; [done|].
  intros []. done.
Qed.

Lemma custody_inv_registerDrug env b n m e h s id s' :
  custody_inv s → registerDrug env b n m e h s = Ok (id, s') →
  custody_inv s'.
Proof.
  intros Hinv Hok.
  apply registerDrug_ok in Hok
    as (_ & Hsender & Hfresh & _ & _ & Hd & _ & Hh & _ & _ & Ho & _).
  intros t. unfold registered. rewrite Hd, Hh, Ho.
  destruct (decide (id = t)) as [<-|Hne].
  - rewrite !slot_insert_eq, lookup_insert_eq.
    destruct (Hinv id) as [Hnone _]. rewrite Hnone by (by intros []).
    split; [done|]. intros _. split; [by eexists|]. split; [done|].
    eexists _, []. cbn. repeat split; auto.
  - rewrite !slot_insert_ne, lookup_insert_ne by done. apply Hinv.
Qed.

Lemma custody_inv_transferOwnership env t to ty s u s' :
  custody_inv s → transferOwnership env t to ty s = Ok (u, s') →
  custody_inv s'.
Proof.
  intros Hinv Hok.
  apply transferOwnership_ok in Hok
    as (Hfrom & _ & Hto & _ & _ & _ & _ & Hd & _ & Hh & _ & _ & Ho & _).
  intros t'. unfold registered. rewrite Hd, Hh, Ho.
  destruct (decide (t = t')) as [<-|Hne].
  - rewrite !slot_insert_eq, lookup_insert_eq.
    destruct (Hinv t) as [_ Hreg].
    destruct (Hreg Hfrom) as (_ & _ & e & rest & -> & He1 & He2 & Hrest & _).
    split; [done|]. intros _. split; [by eexists|]. split; [done|].
    exists e, (rest ++ [TransferEvent.mk (_owners (erc721 s) !!. t) to
                          (block_timestamp env) ty]).
    repeat split; auto.
    + apply Forall_app. split; [done|]. by repeat constructor.
    + rewrite app_comm_cons, last_snoc. done.
  - rewrite !slot_insert_ne, lookup_insert_ne by done. apply Hinv.
Qed.

Lemma custody_inv_deactivateDrug env t s u s' :
  custody_inv s → deactivateDrug env t s = Ok (u, s') → custody_inv s'.
Proof.
  intros Hinv Hok. apply deactivateDrug_ok in Hok as (Hreg & _ & ->).
  intros t'. unfold registered. cbn.
  destruct (decide (t = t')) as [<-|Hne].
  - rewrite !slot_insert_eq, lookup_insert_eq.
    destruct (Hinv t) as [Hnone Hsome]. split; [done|]. intros _.
    destruct (Hsome Hreg) as (_ & Hcur & Hlog). split; [by eexists|]. done.
  - rewrite !slot_insert_ne, lookup_insert_ne by done. apply Hinv.
Qed.

Lemma custody_inv_assignRole env user role s u s' :
  custody_inv s → assignRole env user role s = Ok (u, s') → custody_inv s'.
Proof.
  intros Hinv Hok. apply assignRole_ok in Hok as (_ & ->). exact Hinv.
Qed.

Lemma custody_inv_exec env c s : custody_inv s → custody_inv (exec env c s).
Proof.
  intros Hinv. destruct (exec_cases env c s) as [->|Hok]; [done|].
  destruct c.
  - destruct Hok as [id Hok]. eauto using custody_inv_registerDrug.
  - eauto using custody_inv_transferOwnership.
  - eauto using custody_inv_deactivateDrug.
  - eauto using custody_inv_assignRole.
Qed.

Lemma custody_inv_reachable s : reachable s → custody_inv s.
Proof.
  induction 1; auto using custody_inv_constructor, custody_inv_exec.
Qed.

Lemma run_cons env c cs s : run ((env, c) :: cs) s = run cs (exec env c s).
Proof. done. Qed.

Lemma reachable_run cs s : reachable s → reachable (run cs s).
Proof.
  revert s. induction cs as [|[env c] cs IH]; intros s Hs; cbn; [done|].
  apply IH. by constructor.
Qed.

Lemma reachable_registered_once : reachable registered_once.
Proof. repeat constructor. Qed.

Lemma reachable_transferred_once : reachable transferred_once.
Proof. repeat constructor. Qed.


Lemma getDrugHistory_registered s t :
  registered s t → getDrugHistory t s = Ok (drugHistory s !!. t, s).
Proof.
  unfold registered. intros Hreg. apply N.eqb_neq in Hreg.
  unfold_calls. unfold_monad. cbn. by rewrite Hreg.
Qed.

Lemma verifyDrug_registered s t :
  registered s t → verifyDrug t s = Ok (drugs s !!. t, s).
Proof.
  unfold registered. intros Hreg. apply N.eqb_neq in Hreg.
  unfold_calls. unfold_monad. cbn. by rewrite Hreg.
Qed.

(** No call changes the first entry of the log of a registered batch. *)
Lemma exec_head_history env c s t :
  custody_inv s → registered s t →
  head (drugHistory (exec env c s) !!. t) = head (drugHistory s !!. t).
Proof.
  intros Hinv Hreg. destruct (exec_cases env c s) as [->|Hok]; [done|].
  destruct c.
  - destruct Hok as [id Hok].
    apply registerDrug_ok in Hok
      as (_ & _ & Hfresh & _ & _ & _ & _ & -> & _).
    rewrite slot_insert_ne; [done|]. intros <-. by apply Hreg.
  - apply transferOwnership_ok in Hok
      as (Hfrom & _ & _ & _ & _ & _ & _ & _ & _ & -> & _).
    destruct (decide (tokenId = t)) as [->|Hne].
    + rewrite slot_insert_eq.
      destruct (Hinv t) as [_ Ht].
      destruct (Ht Hreg) as (_ & _ & e & rest & -> & _). done.
    + by rewrite slot_insert_ne.
  - apply deactivateDrug_ok in Hok as (_ & _ & ->). done.
  - apply assignRole_ok in Hok as (_ & ->). done.
Qed.

(** C3. In every state of a deployed contract, the audit log of every
    registered batch, as getDrugHistory returns it, is non-empty and
    starts with an event from the zero address of type "manufacture", and
    no later entry comes from the zero address; a successful registration
    leaves exactly that one event in the log of the new batch, with the
    registering caller as recipient; and no call changes the first entry
    of the log of a registered batch. *)
Theorem manufacture_event_first s :
  reachable s →
  (∀ t, registered s t →
     ∃ e rest,
       getDrugHistory t s = Ok (e :: rest, s)
       ∧ TransferEvent.from e = 0
       ∧ TransferEvent.eventType e = "manufacture"
       ∧ Forall (λ e', TransferEvent.from e' ≠ 0) rest)
  ∧ (∀ env b n m e h id s',
       registerDrug env b n m e h s = Ok (id, s') →
       registered s' id
       ∧ drugHistory s' !!. id =
           [TransferEvent.mk 0 (msg_sender env) (block_timestamp env)
              "manufacture"])
  ∧ (∀ env c t, registered s t →
       head (drugHistory (exec env c s) !!. t)
       = head (drugHistory s !!. t)).
Proof.
  intros Hs. apply custody_inv_reachable in Hs as Hinv.
  split; [|split].
  - intros t Hreg. rewrite getDrugHistory_registered by done.
    destruct (Hinv t) as [_ Ht].
    destruct (Ht Hreg) as (_ & _ & e & rest & -> & ? & ? & ? & _).
    by exists e, rest.
  - intros env b n m e h id s' Hok.
    apply registerDrug_ok in Hok
      as (_ & Hsender & Hfresh & _ & _ & _ & _ & Hh & _ & _ & Ho & _).
    unfold registered. rewrite Hh, Ho, !slot_insert_eq.
    split; [done|].
    destruct (Hinv id) as [Hnone _]. rewrite Hnone; [done|].
    intros Hreg. by apply Hreg.
  - intros env c t Hreg. by apply exec_head_history.
Qed.

Lemma manufacture_event_first_witness :
  reachable registered_once
  ∧ ∃ e rest,
      getDrugHistory 1 registered_once = Ok (e :: rest, registered_once)
      ∧ TransferEvent.from e = 0
      ∧ TransferEvent.eventType e = "manufacture"
      ∧ Forall (λ e', TransferEvent.from e' ≠ 0) rest.
Proof.
  split; [exact reachable_registered_once|].
  apply (manufacture_event_first registered_once reachable_registered_once).
  vm_compute. discriminate.
Defined.

(** C4. In every state of a deployed contract, whatever sequence of
    registrations, transfers, deactivations (and role assignments) led to
    it, the owner recorded in a registered batch is the recipient of the
    most recent entry of its audit log. *)
Theorem owner_is_last_recipient s t :
  reachable s → registered s t →
  ∃ d h e,
    verifyDrug t s = Ok (d, s)
    ∧ getDrugHistory t s = Ok (h, s)
    ∧ last h = Some e
    ∧ Drug.currentOwner d = TransferEvent.to e.
Proof.
  intros Hs Hreg. apply custody_inv_reachable in Hs as Hinv.
  rewrite verifyDrug_registered, getDrugHistory_registered by done.
  destruct (Hinv t) as [_ Ht].
  destruct (Ht Hreg) as (_ & Hcur & e & rest & -> & _ & _ & _ & Hlast).
  destruct (last (e :: rest)) as [e'|] eqn:El; [|done].
  exists (drugs s !!. t), (e :: rest), e'.
  repeat split; auto. rewrite Hcur. cbn in Hlast. congruence.
Qed.

Lemma owner_is_last_recipient_witness :
  reachable transferred_once ∧ registered transferred_once 1
  ∧ ∃ d h e,
      verifyDrug 1 transferred_once = Ok (d, transferred_once)
      ∧ getDrugHistory 1 transferred_once = Ok (h, transferred_once)
      ∧ last h = Some e
      ∧ Drug.currentOwner d = TransferEvent.to e.
Proof.
  assert (Hreg : registered transferred_once 1) by (vm_compute; discriminate).
  split; [exact reachable_transferred_once|]. split; [exact Hreg|].
  exact (owner_is_last_recipient transferred_once 1
           reachable_transferred_once Hreg).
Defined.

(** *** Deactivation *)








(** *** Transfer preconditions *)

Lemma transfer_first_failing env tokenId newOwner eventType s :
  let r := transferOwnership env tokenId newOwner eventType s in
  match first_failing_precondition env tokenId newOwner s with
  | Some p =>
      r = Err (Revert (precondition_reason p))
      ∧ fails_with r = Some (precondition_kind p)
      ∧ state_after s r = s
  | None => fails_with r = None
  end.
Proof.
  cbn. unfold first_failing_precondition.
  unfold_calls. unfold_monad. cbn.
  repeat (case_if; cbn; bool_to_prop; subst; try done; try lia).
Qed.

(** C2. The preconditions of a transfer are decided in the order of the
    specification: whenever one of the six fails, the call reverts with
    the reason, hence the error kind, of the first failing one in that
    order (existence: NotFoundError, requester is the owner:
    AuthorizationError, new owner differs and new owner non-empty:
    ValidationError, active and not expired: StateError) and the storage
    is the one the call started from, as after any failed call; when none
    fails the call fails with no error of the taxonomy. In particular a
    requester who is not
    the owner of a registered inactive batch gets AuthorizationError, and
    the owner transferring an inactive expired batch to a valid new
    owner gets the StateError of the inactive check, not of the expiry
    check. *)
Theorem transfer_precondition_order env tokenId newOwner eventType s :
  let r := transferOwnership env tokenId newOwner eventType s in
  let owner := _owners (erc721 s) !!. tokenId in
  let d := drugs s !!. tokenId in
  match first_failing_precondition env tokenId newOwner s with
  | Some p =>
      r = Err (Revert (precondition_reason p))
      ∧ fails_with r = Some (precondition_kind p)
      ∧ state_after s r = s
  | None => fails_with r = None
  end
  ∧ (succeeded r = false → state_after s r = s)
  ∧ (registered s tokenId → msg_sender env ≠ owner →
     Drug.isActive d = false →
     fails_with r = Some AuthorizationError ∧ state_after s r = s)
  ∧ (registered s tokenId → msg_sender env = owner →
     newOwner ≠ 0 → newOwner ≠ owner →
     Drug.isActive d = false → Drug.expiryDate d ≤ block_timestamp env →
     r = Err (Revert "Drug is not active")
     ∧ fails_with r = Some StateError ∧ state_after s r = s).
Proof.
  cbn. split; [apply transfer_first_failing|].
  split; [by destruct (transferOwnership _ _ _ _ _) as [[]|]|].
  pose proof (transfer_first_failing env tokenId newOwner eventType s) as H.
  cbn in H. unfold first_failing_precondition, registered in *.
  split.
  - intros Hreg Hne Hoff.
    apply N.eqb_neq in Hreg, Hne. rewrite Hreg, Hne in H. cbn in H.
    by destruct H as (-> & _ & _).
  - intros Hreg Heq Hto Hdiff Hoff Hexp.
    apply N.eqb_neq in Hreg, Hto, Hdiff. apply N.eqb_eq in Heq.
    rewrite Hreg, Heq, Hto, Hdiff, Hoff in H. cbn in H.
    by destruct H as (-> & _ & _).
Qed.

Lemma transfer_precondition_order_witness :
  registered deactivated 1
  ∧ msg_sender (signer 3) ≠ _owners (erc721 deactivated) !!. 1
  ∧ Drug.isActive (drugs deactivated !!. 1) = false
  ∧ fails_with (transferOwnership (signer 3) 1 4 "transfer" deactivated)
    = Some AuthorizationError
  ∧ state_after deactivated
      (transferOwnership (signer 3) 1 4 "transfer" deactivated)
    = deactivated.
Proof.
  assert (H1 : registered deactivated 1) by (vm_compute; discriminate).
  assert (H2 : msg_sender (signer 3) ≠ _owners (erc721 deactivated) !!. 1)
    by (vm_compute; discriminate).
  assert (H3 : Drug.isActive (drugs deactivated !!. 1) = false)
    by (vm_compute; reflexivity).
  split; [exact H1|]. split; [exact H2|]. split; [exact H3|].
  destruct (transfer_precondition_order (signer 3) 1 4 "transfer"
              deactivated) as (_ & _ & Hstranger & _).
  exact (Hstranger H1 H2 H3).
Defined.

(** *** Roles *)

Lemma getUserRole_exec env c s u :
  (∀ role, c ≠ AssignRole u role) →
  userRoles (exec env c s) !! u = userRoles s !! u.
Proof.
  intros Hc. destruct (exec_cases env c s) as [->|Hok]; [done|].
  destruct c.
  - destruct Hok as [id Hok].
    apply registerDrug_ok in Hok
      as (_ & _ & _ & _ & _ & _ & _ & _ & -> & _). done.
  - apply transferOwnership_ok in Hok
      as (_ & _ & _ & _ & _ & _ & _ & _ & _ & _ & -> & _). done.
  - apply deactivateDrug_ok in Hok as (_ & _ & ->). done.
  - apply assignRole_ok in Hok as (_ & ->). cbn.
    apply lookup_insert_ne. intros ->. by eapply Hc.
Qed.

Lemma unassigned_lookup u s : unassigned u s → userRoles s !! u = None.
Proof.
  induction 1 as [deployer Hne|env c s Hs IH Hc].
  - cbn. by apply lookup_singleton_ne.
  - by rewrite getUserRole_exec.
Qed.

(** C7 (amended). getUserRole never fails. For an identity that was never
    given a role (it is not the deployer and no assignRole named it) it
    returns the empty string, the unset role; after assignRole by the
    contract owner it returns the role assigned, whatever the identity
    held before. *)
Theorem role_directory s u :
  (∀ v, getUserRole v s = Ok (userRoles s !!. v, s))
  ∧ (unassigned u s → getUserRole u s = Ok ("", s))
  ∧ (∀ env role, msg_sender env = _owner s →
       ∃ s', assignRole env u role s = Ok (tt, s')
             ∧ getUserRole u s' = Ok (role, s')).
Proof.
  split; [done|]. split.
  - intros Hu. unfold getUserRole, gets, slot.
    by rewrite (unassigned_lookup u s Hu).
  - intros env role Hadmin. apply N.eqb_eq in Hadmin.
    unfold_calls. unfold_monad. cbn. rewrite N.eqb_sym, Hadmin. cbn.
    eexists. split; [done|]. destruct s. simpl_state.
    by rewrite slot_insert_eq.
Qed.

Lemma role_directory_witness :
  unassigned 2 registered_once
  ∧ getUserRole 2 registered_once = Ok ("", registered_once)
  ∧ ∃ s', assignRole (signer 1) 2 "distributor" registered_once = Ok (tt, s')
          ∧ getUserRole 2 s' = Ok ("distributor", s').
Proof.
  assert (Hu : unassigned 2 registered_once).
  { apply unassigned_exec; [by apply unassigned_constructor | done]. }
  destruct (role_directory registered_once 2) as (_ & Hunset & Hassign).
  split; [exact Hu|]. split; [exact (Hunset Hu)|].
  apply (Hassign (signer 1) "distributor"). reflexivity.
Defined.

(** C7, as the specification words it, has getRole return Customer for an
    unset identity: the contract returns the empty string, which is not
    the role "customer". *)
Lemma unset_role_is_not_customer :
  unassigned 2 deployed
  ∧ getUserRole 2 deployed = Ok ("", deployed)
  ∧ getUserRole 2 deployed ≠ Ok ("customer", deployed).
Proof.
  split; [by apply unassigned_constructor|]. split; [reflexivity|].
  vm_compute. discriminate.
Qed.

Lemma userRoles_exec env c s :
  (∀ v role, c ≠ AssignRole v role) →
  userRoles (exec env c s) = userRoles s.
Proof.
  intros Hc. destruct (exec_cases env c s) as [->|Hok]; [done|].
  destruct c.
  - destruct Hok as [id Hok].
    apply registerDrug_ok in Hok
      as (_ & _ & _ & _ & _ & _ & _ & _ & -> & _). done.
  - apply transferOwnership_ok in Hok
      as (_ & _ & _ & _ & _ & _ & _ & _ & _ & _ & -> & _). done.
  - apply deactivateDrug_ok in Hok as (_ & _ & ->). done.
  - by destruct (Hc user role).
Qed.

(** C10. In the state the constructor produces, and in every state
    reached from it by calls none of which is an assignRole, the deployer
    holds the role "manufacturer" and every other identity the unset
    (empty) role: getUserRole returns a non-default role for the deployer
    and only for the deployer. *)
Theorem deployer_is_manufacturer deployer cs u :
  Forall (λ ec : Env * Call, ∀ v role, ec.2 ≠ AssignRole v role) cs →
  let s := run cs (constructor deployer) in
  getUserRole u s =
    Ok (if decide (u = deployer) then "manufacturer" else "", s)
  ∧ "manufacturer" ≠ "".
Proof.
  intros Hcs. cbn. split; [|done].
  assert (Hroles : userRoles (run cs (constructor deployer))
                   = {[deployer := "manufacturer"]}).
  { assert (∀ s, userRoles (run cs s) = userRoles s) as Hrun.
    { induction Hcs as [|[env c] cs Hc _ IH]; intros s; [done|].
      rewrite run_cons, IH. by apply userRoles_exec. }
    by rewrite Hrun. }
  unfold getUserRole, gets, slot. rewrite Hroles.
  case_decide as Hu.
  - subst. by rewrite lookup_singleton_eq.
  - by rewrite lookup_singleton_ne.
Qed.

Lemma deployer_is_manufacturer_witness :
  getUserRole 1 registered_once = Ok ("manufacturer", registered_once)
  ∧ getUserRole 2 registered_once = Ok ("", registered_once).
Proof.
  assert (Hcs : Forall (λ ec : Env * Call, ∀ v role, ec.2 ≠ AssignRole v role)
                  [(signer 1, register_sample)])
    by (repeat constructor; done).
  split.
  - apply (deployer_is_manufacturer 1 [(signer 1, register_sample)] 1 Hcs).
  - apply (deployer_is_manufacturer 1 [(signer 1, register_sample)] 2 Hcs).
Defined.

(** *** Registration *)

Lemma registerDrug_cases env b n m e h s :
  let r := registerDrug env b n m e h s in
  if decide (b = "") then r = Err (Revert "Batch ID cannot be empty")
  else if decide (n = "") then r = Err (Revert "Drug name cannot be empty")
  else if decide (m = "")
       then r = Err (Revert "Manufacturer cannot be empty")
  else if decide (e ≤ block_timestamp env)
       then r = Err (Revert "Expiry date must be in the future")
  else if decide (batchIdToTokenId s !!. b = 0)
       then succeeded r = true ∨ fails_with r = None
  else r = Err (Revert "Batch ID already exists").
Proof.
  cbn. unfold registerDrug.
  destruct b as [|cb b]; [done|]. destruct n as [|cn n]; [done|].
  destruct m as [|cm m]; [done|].
  rewrite !decide_False by done.
  unfold_monad. cbn.
  assert (Hpos : ∀ k, (0 <? N.of_nat (S k)) = true)
    by (intros; apply N.ltb_lt; lia).
  rewrite !Hpos.
  destruct (block_timestamp env <? e) eqn:Ht; bool_to_prop.
  2: { by rewrite decide_True. }
  rewrite decide_False by lia.
  destruct (batchIdToTokenId s !!. String cb b =? 0) eqn:Hk; bool_to_prop.
  2: { by rewrite decide_False. }
  rewrite decide_True by done.
  unfold_calls. unfold_monad. cbn.
  repeat (case_if; cbn; auto).
Qed.

Lemma registerDrug_trichotomy env b n m e h s :
  let r := registerDrug env b n m e h s in
  let invalid := b = "" ∨ n = "" ∨ m = "" ∨ e ≤ block_timestamp env in
  (invalid ∧ fails_with r = Some ValidationError)
  ∨ (¬ invalid ∧ batchIdToTokenId s !!. b ≠ 0
     ∧ r = Err (Revert "Batch ID already exists"))
  ∨ (¬ invalid ∧ batchIdToTokenId s !!. b = 0
     ∧ (succeeded r = true ∨ fails_with r = None)).
Proof.
  cbn. pose proof (registerDrug_cases env b n m e h s) as Hc. cbn in Hc.
  destruct (decide (b = "")); [left; rewrite Hc; by auto|].
  destruct (decide (n = "")); [left; rewrite Hc; by auto|].
  destruct (decide (m = "")); [left; rewrite Hc; by auto|].
  destruct (decide (e ≤ block_timestamp env)); [left; rewrite Hc; by auto|].
  right. destruct (decide (batchIdToTokenId s !!. b = 0)).
  - right. split; [by intros [?|[?|[?|?]]]|]. by split.
  - left. split; [by intros [?|[?|[?|?]]]|]. by split.
Qed.




(** *** The owner enumeration *)



(** An owner holds at most as many tokens as the counter has handed
    out. *)
Lemma balance_le_counter s o :
  enumerated s → o ≠ 0 → _balances (erc721 s) !!. o ≤ _tokenIdCounter s.
Proof.
  intros (_ & Hids & _ & Hslots) Ho.
  set (n := N.to_nat (_balances (erc721 s) !!. o)).
  set (f := λ i : nat, N.to_nat (_ownedTokens (erc721 s) !!. (o, N.of_nat i))).
  assert (Hlt : ∀ i, i ∈ seq 0 n → N.of_nat i < _balances (erc721 s) !!. o).
  { intros i Hi%elem_of_seq. lia. }
  assert (Hdup : NoDup (f <$> seq 0 n)).
  { apply NoDup_fmap_2_strong; [|apply NoDup_seq].
    intros i j Hi%Hlt Hj%Hlt Hij. unfold f in Hij.
    apply N2Nat.inj in Hij.
    destruct (Hslots o _ Ho Hi) as [_ Hi'].
    destruct (Hslots o _ Ho Hj) as [_ Hj'].
    rewrite Hij in Hi'. lia. }
  assert (Hsub : ∀ x, x ∈ f <$> seq 0 n →
                      x ∈ seq 1 (N.to_nat (_tokenIdCounter s))).
  { intros x (i & -> & Hi%Hlt)%list_elem_of_fmap.
    destruct (Hslots o _ Ho Hi) as [Hown _].
    unfold f. apply elem_of_seq.
    assert (Hreg : registered s (_ownedTokens (erc721 s) !!. (o, N.of_nat i)))
      by (unfold registered; by rewrite Hown).
    apply Hids in Hreg. lia. }
  pose proof (submseteq_length _ _ (NoDup_submseteq _ _ Hdup Hsub)) as Hlen.
  rewrite length_fmap, !length_seq in Hlen. lia.
Qed.

Lemma unchecked_incr_small x : x + 1 < modulus → unchecked_incr x = x + 1.
Proof. intros. unfold unchecked_incr. by apply N.mod_small. Qed.

Lemma unchecked_decr_small x :
  0 < x → x < modulus → unchecked_decr x = x - 1.
Proof.
  intros. unfold unchecked_decr.
  replace (x + modulus - 1) with (x - 1 + 1 * modulus) by lia.
  rewrite N.Div0.mod_add. apply N.mod_small. lia.
Qed.

(** A transfer whose preconditions hold goes through when the sender's
    balance is not zero, and rearranges the enumeration as follows. *)
Lemma transferOwnership_enabled env t to ty s :
  let k := erc721 s in
  let from := _owners k !!. t in
  let last := _balances k !!. from - 1 in
  let index := _ownedTokensIndex k !!. t in
  from ≠ 0 → from = msg_sender env → to ≠ 0 → to ≠ from →
  Drug.isActive (drugs s !!. t) = true →
  block_timestamp env < Drug.expiryDate (drugs s !!. t) →
  _balances k !!. from ≠ 0 →
  ∃ s',
    transferOwnership env t to ty s = Ok (tt, s')
    ∧ _balances (erc721 s') !!. from = unchecked_decr (_balances k !!. from)
    ∧ _balances (erc721 s') !!. to = unchecked_incr (_balances k !!. to)
    ∧ _ownedTokens (erc721 s') =
        <[(to, _balances k !!. to) := t]>
          (delete (from, last)
             (if index =? last then _ownedTokens k
              else <[(from, index) := _ownedTokens k !!. (from, last)]>
                     (_ownedTokens k)))
    ∧ _ownedTokensIndex (erc721 s') =
        <[t := _balances k !!. to]>
          (delete t
             (if index =? last then _ownedTokensIndex k
              else <[_ownedTokens k !!. (from, last) := index]>
                     (_ownedTokensIndex k)))
    ∧ _balances (erc721 s') =
        <[to := unchecked_incr (_balances k !!. to)]>
          (<[from := unchecked_decr (_balances k !!. from)]> (_balances k)).
Proof.
  cbn. intros Hfrom Hsender Hto Hdiff Hon Hexp Hbal.
  unfold_calls. unfold_monad. cbn.
  repeat (case_if; cbn; bool_to_prop; subst; try done; try congruence;
          try lia).
  all: eexists; (split; [reflexivity|]); destruct s as [? ? ? ? ? [] ? ?];
    simpl_state; cbn in *; simpl_state;
    repeat first [rewrite slot_insert_eq
                 | rewrite slot_insert_ne by congruence]; done.
Qed.


(** *** The enumeration is kept by every call *)

Section SlotDecide.
Context `{Countable K} `{Zero V}.
Implicit Types (m : gmap K V) (k : K) (v : V).

Lemma slot_insert m k k' v :
  <[k := v]> m !!. k' = if decide (k = k') then v else m !!. k'.
Proof.
  case_decide; [subst; apply slot_insert_eq|by apply slot_insert_ne].
Qed.

Lemma slot_delete m k k' :
  delete k m !!. k' = if decide (k = k') then zero else m !!. k'.
Proof.
  case_decide; [subst; apply slot_delete_eq|by apply slot_delete_ne].
Qed.
End SlotDecide.

Lemma registerDrug_enumeration env b n m e h s id s' :
  registerDrug env b n m e h s = Ok (id, s') →
  let k := erc721 s in
  let to := msg_sender env in
  _ownedTokens (erc721 s') = <[(to, _balances k !!. to) := id]> (_ownedTokens k)
  ∧ _ownedTokensIndex (erc721 s')
    = <[id := _balances k !!. to]> (_ownedTokensIndex k)
  ∧ _balances (erc721 s')
    = <[to := unchecked_incr (_balances k !!. to)]> (_balances k).
Proof.
  unfold_calls. unfold_monad. cbn.
  repeat (case_if; cbn in *; try discriminate).
  intros [= <- <-]. destruct s as [? ? ? ? ? [] ? ?]. simpl_state. done.
Qed.

Lemma enumerated_constructor deployer : enumerated (constructor deployer).
Proof.
  unfold enumerated, registered. cbn. split; [done|].
  split; [intros t; by rewrite slot_empty|].
  split; [intros t; by rewrite slot_empty|].
  intros o i _. rewrite slot_empty. unfold zero, N_zero. lia.
Qed.

Lemma enumerated_registerDrug env b n m e h s id s' :
  enumerated s → _tokenIdCounter s + 2 < modulus →
  registerDrug env b n m e h s = Ok (id, s') → enumerated s'.
Proof.
  intros Henum Hroom Hok.
  pose proof (registerDrug_enumeration _ _ _ _ _ _ _ _ _ Hok)
    as (Hot & Hix & Hbal). cbn in Hot, Hix, Hbal.
  apply registerDrug_ok in Hok
    as (Hid & Hto & Hfresh & _ & Hcount & _ & _ & _ & _ & _ & Ho & _).
  rewrite unchecked_incr_small in Hid by lia.
  pose proof (balance_le_counter s (msg_sender env) Henum Hto) as Hbt.
  rewrite unchecked_incr_small in Hbal by lia.
  destruct Henum as (_ & Hids & Hidx & Hslots).
  set (to := msg_sender env) in *.
  unfold enumerated, registered in *.
  rewrite Hcount, Hot, Hix, Hbal, Ho. split; [lia|]. split; [|split].
  - intros t. rewrite slot_insert. case_decide; [lia|].
    intros Ht%Hids. lia.
  - intros t. rewrite !(slot_insert _ id t). case_decide as Ht.
    + subst t. intros _. rewrite !slot_insert_eq. split; [lia|done].
    + intros Hreg. destruct (Hidx t Hreg) as [Hlt Hat].
      rewrite !slot_insert.
      destruct (decide (to = _owners (erc721 s) !!. t)) as [Heq|Hne].
      * rewrite <- Heq in *.
        rewrite decide_False by (intros [=]; lia). split; [lia|done].
      * rewrite decide_False by congruence. done.
  - intros o i Ho'. rewrite !slot_insert.
    destruct (decide (to = o)) as [<-|Hne]; intros Hi.
    + destruct (decide ((to, _balances (erc721 s) !!. to) = (to, i)))
        as [[= <-]|Hne'].
      * rewrite !decide_True by done. done.
      * assert (Hi' : i < _balances (erc721 s) !!. to)
          by (assert (i ≠ _balances (erc721 s) !!. to) by congruence; lia).
        destruct (Hslots to i Hto Hi') as [Hown Hidx'].
        assert (id ≠ _ownedTokens (erc721 s) !!. (to, i))
          by (intros E; rewrite E, Hown in Hfresh; by apply Hto).
        rewrite !decide_False by done. done.
    + destruct (decide ((to, _balances (erc721 s) !!. to) = (o, i)))
        as [[= ? ?]|_]; [done|].
      destruct (Hslots o i Ho' Hi) as [Hown Hidx'].
      assert (id ≠ _ownedTokens (erc721 s) !!. (o, i))
        by (intros E; rewrite E, Hown in Hfresh; by apply Ho').
      rewrite !decide_False by done. done.
Qed.

Ltac solve_ne :=
  first [ done | congruence | lia
        | by (intros [=]; first [lia | congruence]) ].

Ltac slots :=
  repeat first
    [ rewrite slot_insert_eq
    | rewrite slot_insert_ne by solve_ne
    | rewrite slot_delete_ne by solve_ne ].

Lemma enumerated_transferOwnership env t to ty s u s' :
  enumerated s → transferOwnership env t to ty s = Ok (u, s') →
  enumerated s'.
Proof.
  intros Henum Hok.
  pose proof (transferOwnership_ok _ _ _ _ _ _ _ Hok)
    as (Hfrom & Hsender & Hto & Hdiff & Hon & Hexp & Hcount & _ & _ & _
        & _ & _ & Ho & _).
  pose proof Henum as (Hroom & Hids & Hidx & Hslots).
  assert (Hreg : registered s t) by exact Hfrom.
  destruct (Hidx t Hreg) as [Hti Hat].
  pose proof (balance_le_counter s _ Henum Hfrom) as Hbf.
  pose proof (balance_le_counter s _ Henum Hto) as Hbt.
  destruct (transferOwnership_enabled env t to ty s)
    as (s'' & Hok' & _ & _ & Hot & Hix & Hbal); auto; [lia|].
  rewrite Hok in Hok'. injection Hok' as _ <-.
  rewrite unchecked_decr_small in Hbal by lia.
  rewrite unchecked_incr_small in Hbal by lia.
  remember (_owners (erc721 s) !!. t) as from eqn:Efrom.
  set (bf := _balances (erc721 s) !!. from) in *.
  set (bt := _balances (erc721 s) !!. to) in *.
  set (ti := _ownedTokensIndex (erc721 s) !!. t) in *.
  set (lt := _ownedTokens (erc721 s) !!. (from, bf - 1)) in *.
  destruct (Hslots from (bf - 1) Hfrom) as [Hlt_own Hlt_idx]; [lia|].
  fold lt in Hlt_own, Hlt_idx.
  assert (Hft : from ≠ to) by congruence.
  unfold enumerated, registered.
  rewrite Hcount, Ho. split; [done|]. split; [|split].
  - intros t'. rewrite slot_insert.
    case_decide as E; [rewrite <- E; auto|auto].
  - intros t'. rewrite (slot_insert _ t t').
    destruct (decide (t = t')) as [<-|Hne].
    { intros _. rewrite Hot, Hix, Hbal. slots. split; [lia|done]. }
    intros Hreg'. destruct (Hidx t' Hreg') as [Hlt' Hat'].
    set (o := _owners (erc721 s) !!. t') in *.
    set (ti' := _ownedTokensIndex (erc721 s) !!. t') in *.
    assert (Hti' : o = from → ti' ≠ ti).
    { intros Eo E. rewrite Eo, E in Hat'. congruence. }
    rewrite Hot, Hix, Hbal.
    destruct (ti =? bf - 1) eqn:Elast; bool_to_prop.
    + destruct (decide (o = from)) as [Eo|Hof].
      * specialize (Hti' Eo). rewrite Eo in *. slots. split; [lia|done].
      * destruct (decide (o = to)) as [Eo|Hot'].
        -- rewrite Eo in *. slots. split; [lia|done].
        -- slots. done.
    + destruct (decide (t' = lt)) as [El|Hnl].
      * assert (Eo : o = from) by (unfold o; by rewrite El).
        rewrite Eo, El in *. slots. split; [lia|done].
      * destruct (decide (o = from)) as [Eo|Hof].
        -- specialize (Hti' Eo). rewrite Eo in *.
           assert (ti' ≠ bf - 1).
           { intros E. rewrite E in Hat'. fold lt in Hat'. congruence. }
           slots. split; [lia|done].
        -- destruct (decide (o = to)) as [Eo|Hot'].
           ++ rewrite Eo in *. slots. split; [lia|done].
           ++ slots. done.
  - intros o i Ho'. rewrite Hbal.
    set (OT' := _ownedTokens (erc721 s')) in *.
    set (IX' := _ownedTokensIndex (erc721 s')) in *.
    assert (Hkeep : ∀ t1, t1 ≠ t → t1 ≠ lt →
              _owners (erc721 s) !!. t1 ≠ 0 →
              <[t:=to]> (_owners (erc721 s)) !!. t1
              = _owners (erc721 s) !!. t1
              ∧ IX' !!. t1 = _ownedTokensIndex (erc721 s) !!. t1).
    { intros t1 H1 H2 _. rewrite Hix. split; [by slots|].
      destruct (ti =? bf - 1); by slots. }
    destruct (decide (o = to)) as [->|Hot'].
    { slots. intros Hi. destruct (decide (i = bt)) as [->|Hib].
      - rewrite Hot, Hix. slots. done.
      - assert (Hi' : i < bt) by lia.
        destruct (Hslots to i Hto Hi') as [Hown Hidx'].
        assert (E : OT' !!. (to, i) = _ownedTokens (erc721 s) !!. (to, i)).
        { rewrite Hot. destruct (ti =? bf - 1); by slots. }
        rewrite E.
        destruct (Hkeep (_ownedTokens (erc721 s) !!. (to, i)))
          as [-> ->]; [congruence..|]. done. }
    destruct (decide (o = from)) as [->|Hof].
    { slots. intros Hi.
      destruct (Hslots from i Hfrom) as [Hown Hidx']; [lia|].
      destruct (ti =? bf - 1) eqn:Elast; bool_to_prop.
      - assert (E : OT' !!. (from, i)
                    = _ownedTokens (erc721 s) !!. (from, i)).
        { rewrite Hot. by slots. }
        rewrite E.
        destruct (Hkeep (_ownedTokens (erc721 s) !!. (from, i)))
          as [-> ->]; [intros E'; rewrite E' in Hidx'; fold ti in Hidx'; lia
                      |intros E'; rewrite E' in Hidx'; lia|congruence|].
        done.
      - destruct (decide (i = ti)) as [->|Hit].
        + assert (E : OT' !!. (from, ti) = lt).
          { rewrite Hot. by slots. }
          rewrite E. rewrite Hix.
          assert (lt ≠ t)
            by (intros E'; rewrite E' in Hlt_idx; fold ti in Hlt_idx; lia).
          slots. done.
        + assert (E : OT' !!. (from, i)
                      = _ownedTokens (erc721 s) !!. (from, i)).
          { rewrite Hot. by slots. }
          rewrite E.
          destruct (Hkeep (_ownedTokens (erc721 s) !!. (from, i)))
            as [-> ->];
            [intros E'; rewrite E' in Hidx'; fold ti in Hidx'; lia
            |intros E'; rewrite E' in Hidx'; lia|congruence|].
          done. }
    slots. intros Hi. destruct (Hslots o i Ho' Hi) as [Hown Hidx'].
    assert (E : OT' !!. (o, i) = _ownedTokens (erc721 s) !!. (o, i)).
    { rewrite Hot. destruct (ti =? bf - 1); by slots. }
    rewrite E.
    destruct (Hkeep (_ownedTokens (erc721 s) !!. (o, i)))
      as [-> ->]; [congruence..|]. done.
Qed.

Lemma enumerated_exec env c s :
  enumerated s → _tokenIdCounter s + 2 < modulus →
  enumerated (exec env c s)
  ∧ _tokenIdCounter (exec env c s) ≤ _tokenIdCounter s + 1.
Proof.
  intros Henum Hroom.
  destruct (exec_cases env c s) as [->|Hok]; [split; [done|lia]|].
  destruct c.
  - destruct Hok as [id Hok]. split.
    + eauto using enumerated_registerDrug.
    + apply registerDrug_ok in Hok as (Hid & _ & _ & _ & -> & _).
      rewrite unchecked_incr_small in Hid by lia. lia.
  - split; [eauto using enumerated_transferOwnership|].
    apply transferOwnership_ok in Hok
      as (_ & _ & _ & _ & _ & _ & -> & _). lia.
  - apply deactivateDrug_ok in Hok as (_ & _ & ->). split; [done|cbn; lia].
  - apply assignRole_ok in Hok as (_ & ->). split; [done|cbn; lia].
Qed.

(** The enumeration is consistent in every state reached from deployment
    by fewer than 2^256 - 1 calls. *)
Lemma enumerated_run cs s :
  enumerated s →
  _tokenIdCounter s + N.of_nat (length cs) + 1 < modulus →
  enumerated (run cs s)
  ∧ _tokenIdCounter (run cs s) ≤ _tokenIdCounter s + N.of_nat (length cs).
Proof.
  revert s. induction cs as [|[env c] cs IH]; intros s Henum Hroom.
  - split; [done|cbn; lia].
  - rewrite run_cons. cbn [length] in *.
    destruct (enumerated_exec env c s Henum) as [Henum' Hstep]; [lia|].
    destruct (IH _ Henum') as [Hrun Hcount]; [lia|].
    split; [done|lia].
Qed.

Lemma enumerated_registered_once : enumerated registered_once.
Proof.
  apply enumerated_exec; [apply enumerated_constructor|done].
Qed.




End DrugAuthFacts.

Module MemStorageFacts.
Import MemStorage.

(** *** Letter case *)

Lemma is_upper_spec n :
  is_upper n = true ↔ (65 ≤ n ≤ 90) ∨ (192 ≤ n ≤ 222 ∧ n ≠ 215).
Proof.
  unfold is_upper.
  rewrite orb_true_iff, !andb_true_iff, negb_true_iff, !N.leb_le, N.eqb_neq.
  lia.
Qed.

Lemma lower_char_code c :
  N_of_ascii (lower_char c) = lower_code (N_of_ascii c).
Proof.
  unfold lower_char, lower_code.
  destruct (is_upper (N_of_ascii c)) eqn:Hu; [|done].
  apply is_upper_spec in Hu. apply N_ascii_embedding. lia.
Qed.

Lemma lower_code_eq n m :
  lower_code n = lower_code m
  ↔ n = m ∨ (is_upper n = true ∧ m = n + 32)
    ∨ (is_upper m = true ∧ n = m + 32).
Proof.
  unfold lower_code.
  destruct (is_upper n) eqn:Hn, (is_upper m) eqn:Hm;
    try apply is_upper_spec in Hn; try apply is_upper_spec in Hm;
    try (apply not_true_iff_false in Hn; rewrite is_upper_spec in Hn);
    try (apply not_true_iff_false in Hm; rewrite is_upper_spec in Hm);
    split; intros; try lia; naive_solver lia.
Qed.

Lemma N_of_ascii_inj c d : N_of_ascii c = N_of_ascii d → c = d.
Proof.
  intros Hcd. rewrite <- (ascii_N_embedding c), Hcd.
  apply ascii_N_embedding.
Qed.

Lemma lower_char_eq c d : lower_char c = lower_char d ↔ same_letter c d.
Proof.
  unfold same_letter. split.
  - intros Hcd. apply (f_equal N_of_ascii) in Hcd.
    rewrite !lower_char_code in Hcd.
    apply lower_code_eq in Hcd as [Hcd|Hcd]; [|by right].
    left. by apply N_of_ascii_inj.
  - intros [->|Hcd]; [done|]. apply N_of_ascii_inj.
    rewrite !lower_char_code. apply lower_code_eq. by right.
Qed.

Lemma toLowerCase_eq s t :
  toLowerCase s = toLowerCase t ↔ eq_upto_case s t.
Proof.
  split.
  - revert t. induction s as [|c s IH]; intros [|d t] Hst; try done.
    + constructor.
    + injection Hst as Hc Hs. constructor; [by apply lower_char_eq|auto].
  - induction 1 as [|c d s t Hcd _ IH]; [done|].
    cbn. f_equal; [by apply lower_char_eq|done].
Qed.

(** *** Maps and sorting *)

Lemma map_get_set {V} k (v : V) m : map_get k (map_set k v m) = Some v.
Proof.
  induction m as [|[k' v'] m IH]; cbn.
  - by rewrite String.eqb_refl.
  - destruct (String.eqb k k') eqn:E; cbn; rewrite ?String.eqb_refl, ?E; done.
Qed.

Lemma map_set_length_fresh {V} k (v : V) m :
  map_get k m = None → length (map_set k v m) = S (length m).
Proof.
  induction m as [|[k' v'] m IH]; cbn; [done|].
  destruct (String.eqb k k'); [done|]. intros Hm. cbn. by rewrite IH.
Qed.

Lemma map_set_length_present {V} k (v : V) m :
  is_Some (map_get k m) → length (map_set k v m) = length m.
Proof.
  induction m as [|[k' v'] m IH]; cbn; [by intros []|].
  destruct (String.eqb k k'); [done|]. intros Hm. cbn. by rewrite IH.
Qed.

Lemma insert_sorted_perm {A} (before : A → A → bool) x l :
  insert_sorted before x l ≡ₚ x :: l.
Proof.
  induction l as [|y l IH]; cbn; [done|].
  destruct (before y x); [|done]. rewrite IH. apply Permutation_swap.
Qed.

Lemma sort_perm {A} (before : A → A → bool) l : sort before l ≡ₚ l.
Proof.
  induction l as [|x l IH]; cbn; [done|].
  unfold sort in *. cbn. by rewrite insert_sorted_perm, IH.
Qed.

Lemma filter_length_decide {A} (p : A → bool) (P : A → Prop)
    `{∀ x, Decision (P x)} l :
  (∀ x, p x = true ↔ P x) →
  length (List.filter p l) = length (filter P l).
Proof.
  intros Hp. induction l as [|x l IH]; [done|].
  rewrite filter_cons. cbn [List.filter]. destruct (p x) eqn:E.
  - rewrite decide_True by (by apply Hp). cbn. by rewrite IH.
  - rewrite decide_False; [done|]. rewrite <- Hp. congruence.
Qed.

(** C9. getDrugBatchesByOwner returns a stored batch exactly when its
    stored owner address and the address asked for are equal up to
    letter case; the address is stored as written: createDrugBatch and
    updateDrugBatch keep the owner address they are given, character for
    character, and getDrugBatchById returns it unchanged. *)
Theorem owner_query_ignores_case st ownerAddress :
  (∀ b, b ∈ getDrugBatchesByOwner ownerAddress st
        ↔ b ∈ values (drugBatches st)
          ∧ eq_upto_case (currentOwnerAddress b) ownerAddress)
  ∧ (∀ uuid now i,
       let '(b, st') := createDrugBatch uuid now i st in
       currentOwnerAddress b = ins_currentOwnerAddress i
       ∧ getDrugBatchById uuid st' = Some b)
  ∧ (∀ now i u a b st',
       upd_currentOwnerAddress u = Some a →
       updateDrugBatch now i u st = Some (b, st') →
       currentOwnerAddress b = a ∧ getDrugBatchById i st' = Some b).
Proof.
  split; [|split].
  - intros b. unfold getDrugBatchesByOwner.
    rewrite sort_perm, list_elem_of_In, filter_In, <- list_elem_of_In.
    rewrite String.eqb_eq, toLowerCase_eq. done.
  - intros uuid now i. cbn. split; [done|].
    unfold getDrugBatchById. cbn. apply map_get_set.
  - intros now i u a b st' Hu. unfold updateDrugBatch.
    destruct (map_get i (drugBatches st)) as [existing|]; [|done].
    intros [= <- <-]. cbn. rewrite Hu. split; [done|].
    unfold getDrugBatchById. cbn. apply map_get_set.
Qed.

Lemma owner_query_ignores_case_witness :
  (∃ b, b ∈ getDrugBatchesByOwner "0XABC1" stale_store
        ∧ currentOwnerAddress b = "0xAbC1")
  ∧ ∀ b, b ∉ getDrugBatchesByOwner "0xAbC2" stale_store.
Proof.
  destruct (owner_query_ignores_case stale_store "0XABC1") as (Hq & _).
  destruct (owner_query_ignores_case stale_store "0xAbC2") as (Hq' & _).
  split.
  - exists stale_batch. split; [apply Hq|reflexivity]. split.
    + vm_compute. left.
    + apply toLowerCase_eq. reflexivity.
  - intros b Hb. apply Hq' in Hb as [Hin Hb].
    apply toLowerCase_eq in Hb.
    change (values (drugBatches stale_store)) with [stale_batch] in Hin.
    apply list_elem_of_singleton in Hin. subst b.
    vm_compute in Hb. discriminate.
Defined.

(** *** Dashboard *)

(** C8 (amended). getDashboardStats counts by status, not by custody
    events or expiry: totalBatches is the number of stored batches,
    activeTransfers the number of them whose status is "in_transit",
    verifiedDrugs the number whose status is not "expired", whatever
    their expiry date. Registering under a fresh identifier raises
    totalBatches by one; a transfer that goes through leaves it as it
    is, and gives the batch the status "delivered" when the event type
    is "deliver" and "in_transit" for every other event type. *)
Theorem dashboard_counts_by_status st :
  let stats := getDashboardStats st in
  totalBatches stats = length (drugBatches st)
  ∧ activeTransfers stats
    = length (filter (λ b, status b = "in_transit")
                (values (drugBatches st)))
  ∧ verifiedDrugs stats
    = length (filter (λ b, status b ≠ "expired") (values (drugBatches st)))
  ∧ (∀ uuid1 uuid2 now i,
       getDrugBatchById uuid1 st = None →
       totalBatches
         (getDashboardStats (post_drug_batch uuid1 uuid2 now i st).2)
       = S (totalBatches stats))
  ∧ (∀ uuid now body b ev st',
       post_transfer uuid now body st = (Json 200 (b, ev), st') →
       status b = (if String.eqb (body_eventType body) "deliver"
                   then "delivered" else "in_transit")
       ∧ (∃ currentDrug,
            getDrugBatchByBatchId (body_batchId body) st = Some currentDrug
            ∧ getDrugBatchById (id currentDrug) st' = Some b)
       ∧ Event.eventType ev = body_eventType body
       ∧ totalBatches (getDashboardStats st') = totalBatches stats).
Proof.
  cbn. split; [done|]. split; [|split; [|split]].
  - apply filter_length_decide. intros b. apply String.eqb_eq.
  - apply filter_length_decide. intros b.
    rewrite negb_true_iff. apply String.eqb_neq.
  - intros uuid1 uuid2 now i Hfresh. by apply map_set_length_fresh.
  - intros uuid now body b ev st'. unfold post_transfer.
    case_if; [done|].
    destruct (getDrugBatchByBatchId _ st) as [currentDrug|] eqn:Hfind;
      [|done].
    unfold updateDrugBatch.
    destruct (map_get (id currentDrug) (drugBatches st))
      as [existing|] eqn:Hget; [|done].
    cbn. intros [= <- <- <-]. cbn.
    split; [done|]. split.
    + exists currentDrug. split; [done|].
      unfold getDrugBatchById. cbn. apply map_get_set.
    + split; [done|]. apply map_set_length_present. by rewrite Hget.
Qed.

Lemma dashboard_counts_by_status_witness :
  getDrugBatchById "id-1" empty = None
  ∧ totalBatches (getDashboardStats stale_store) = 1%nat
  ∧ ∃ b, getDrugBatchById "id-1" verified_store = Some b
         ∧ status b = "in_transit"
         ∧ totalBatches (getDashboardStats verified_store) = 1%nat.
Proof.
  destruct (dashboard_counts_by_status empty) as (_ & _ & _ & Hreg & _).
  destruct (dashboard_counts_by_status stale_store)
    as (_ & _ & _ & _ & Htransfer).
  split; [reflexivity|]. split.
  - exact (Hreg "id-1" "ev-1" 5000 (sample_batch 2000 "0xAbC1") eq_refl).
  - destruct (post_transfer "ev-2" 6000
                (mkTransferBody "BTC-2024-001" "Pharmacy" "0xDeF2" "verify"
                   None) stale_store) as [[code [b ev]|code msg] st']
      eqn:Hpost; [|vm_compute in Hpost; discriminate].
    assert (code = 200) as -> by (vm_compute in Hpost; congruence).
    destruct (Htransfer _ _ _ _ _ _ Hpost)
      as (Hstatus & (cur & Hcur & Hget) & _ & Htotal).
    assert (st' = verified_store) as ->
      by (unfold verified_store; by rewrite Hpost).
    assert (id cur = "id-1") as Hid
      by (vm_compute in Hcur; by injection Hcur as <-).
    rewrite Hid in Hget.
    exists b. split; [exact Hget|]. split; [exact Hstatus|].
    rewrite Htotal.
    exact (Hreg "id-1" "ev-1" 5000 (sample_batch 2000 "0xAbC1") eq_refl).
Defined.

(** C8, as the specification words it, counts by expiry and by the most
    recent custody event: the counts returned differ. A batch whose expiry
    has passed is still counted among the verified drugs, and a batch whose
    most recent event is of type "verify", neither transfer nor
    distribute, is counted as an active transfer. *)
Lemma dashboard_ignores_expiry_and_events :
  verifiedDrugs (getDashboardStats stale_store)
  ≠ spec_nonExpiredCount 5000 stale_store
  ∧ activeTransfers (getDashboardStats verified_store)
    ≠ spec_activeTransfersInProgress verified_store
  ∧ verifiedDrugs (getDashboardStats stale_store) = 1%nat
  ∧ spec_nonExpiredCount 5000 stale_store = 0%nat
  ∧ activeTransfers (getDashboardStats verified_store) = 1%nat
  ∧ spec_activeTransfersInProgress verified_store = 0%nat
  ∧ (Event.eventType <$> most_recent_event "BTC-2024-001" verified_store)
    = Some "verify".
Proof. vm_compute. repeat split; discriminate. Qed.

End MemStorageFacts.

(** ** Further facts about the contract *)

Module DrugAuthMore.
Import DrugAuthFacts.

(** *** Induction over the calls of a deployed contract *)

Lemma run_invariant_from (P : State → Prop) cs :
  (∀ env c s, reachable s → enumerated s →
     _tokenIdCounter s + 2 < modulus → P s → P (exec env c s)) →
  ∀ s, reachable s → enumerated s →
    _tokenIdCounter s + N.of_nat (length cs) + 1 < modulus →
    P s → P (run cs s).
Proof.
  intros Hstep. induction cs as [|[env c] cs IH]; intros s Hs Henum Hroom HP.
  - done.
  - rewrite run_cons. cbn [length] in Hroom.
    destruct (enumerated_exec env c s Henum) as [Henum' Hcount]; [lia|].
    apply IH; [by constructor|done|lia|]. apply Hstep; auto. lia.
Qed.

Lemma run_invariant (P : State → Prop) deployer cs :
  P (constructor deployer) →
  (∀ env c s, reachable s → enumerated s →
     _tokenIdCounter s + 2 < modulus → P s → P (exec env c s)) →
  N.of_nat (length cs) + 1 < modulus →
  P (run cs (constructor deployer)).
Proof.
  intros Hinit Hstep Hroom.
  apply run_invariant_from; auto using reachable_constructor,
    enumerated_constructor.
Qed.

Lemma run_app cs1 cs2 s : run (cs1 ++ cs2) s = run cs2 (run cs1 s).
Proof. unfold run. apply foldl_app. Qed.

(** *** Registered ids *)

Lemma registered_exec env c s t :
  registered s t → registered (exec env c s) t.
Proof.
  intros Hreg. destruct (exec_cases env c s) as [->|Hok]; [done|].
  unfold registered in *. destruct c.
  - destruct Hok as [id Hok].
    apply registerDrug_ok in Hok
      as (_ & Hto & _ & _ & _ & _ & _ & _ & _ & _ & -> & _).
    rewrite slot_insert. by case_decide.
  - apply transferOwnership_ok in Hok
      as (_ & _ & Hto & _ & _ & _ & _ & _ & _ & _ & _ & _ & -> & _).
    rewrite slot_insert. by case_decide.
  - apply deactivateDrug_ok in Hok as (_ & _ & ->). done.
  - apply assignRole_ok in Hok as (_ & ->). done.
Qed.

Lemma registered_run cs s t : registered s t → registered (run cs s) t.
Proof.
  revert s. induction cs as [|[env c] cs IH]; intros s Hreg; [done|].
  rewrite run_cons. by apply IH, registered_exec.
Qed.

Lemma sequential_constructor deployer : sequential (constructor deployer).
Proof.
  split; [done|]. intros t. unfold registered. cbn. rewrite slot_empty.
  unfold zero, N_zero. split; [done|lia].
Qed.

Lemma sequential_exec env c s :
  sequential s → _tokenIdCounter s + 2 < modulus →
  sequential (exec env c s).
Proof.
  intros [Hroom Hseq] Hroom2.
  destruct (exec_cases env c s) as [->|Hok]; [by split|].
  unfold sequential, registered in *. destruct c.
  - destruct Hok as [id Hok].
    apply registerDrug_ok in Hok
      as (Hid & Hto & _ & _ & -> & _ & _ & _ & _ & _ & -> & _).
    rewrite unchecked_incr_small in Hid by lia. subst id.
    split; [lia|]. intros t. rewrite slot_insert. case_decide as Ht.
    + subst t. split; [lia|done].
    + rewrite Hseq. lia.
  - apply transferOwnership_ok in Hok
      as (Hfrom & _ & Hto & _ & _ & _ & -> & _ & _ & _ & _ & _ & -> & _).
    split; [done|]. intros t. rewrite slot_insert. case_decide as Ht.
    + subst t. split; [intros _; by apply Hseq|done].
    + apply Hseq.
  - apply deactivateDrug_ok in Hok as (_ & _ & ->). by split.
  - apply assignRole_ok in Hok as (_ & ->). by split.
Qed.

Lemma sequential_run deployer cs :
  N.of_nat (length cs) + 1 < modulus →
  sequential (run cs (constructor deployer)).
Proof.
  apply run_invariant; [apply sequential_constructor|].
  intros env c s _ _ Hroom Hseq. by apply sequential_exec.
Qed.

Lemma accepted_exec env c s : accepted env c s = false → exec env c s = s.
Proof.
  destruct c; cbn;
    match goal with
    | |- context [state_after s ?r] => by destruct r as [[]|]
    end.
Qed.

Lemma counter_exec env c s :
  _tokenIdCounter (exec env c s)
  = if is_register c && accepted env c s
    then unchecked_incr (_tokenIdCounter s) else _tokenIdCounter s.
Proof.
  destruct c; cbn.
  - destruct (registerDrug _ _ _ _ _ _ _) as [[id s']|] eqn:Hok; [|done].
    cbn. by apply registerDrug_ok in Hok as (-> & _ & _ & _ & -> & _).
  - destruct (transferOwnership _ _ _ _ _) as [[u s']|] eqn:Hok; [|done].
    cbn. by apply transferOwnership_ok in Hok
      as (_ & _ & _ & _ & _ & _ & -> & _).
  - destruct (deactivateDrug _ _ _) as [[u s']|] eqn:Hok; [|done].
    cbn. by apply deactivateDrug_ok in Hok as (_ & _ & ->).
  - destruct (assignRole _ _ _ _) as [[u s']|] eqn:Hok; [|done].
    cbn. by apply assignRole_ok in Hok as (_ & ->).
Qed.

(** X1. In every state a deployed contract reaches by fewer than
    2^256 - 1 calls, the ids in use are exactly 1 to totalDrugs, which is at
    most the number of calls made: verifyDrug, getDrugHistory and ownerOf
    succeed on these ids and fail on every other one, id 0 included, with
    "Drug does not exist" (ownerOf with "ERC721: invalid token ID"). *)
Theorem ids_are_sequential deployer cs t :
  N.of_nat (length cs) + 1 < modulus →
  let s := run cs (constructor deployer) in
  ∃ n,
    totalDrugs s = Ok (n, s)
    ∧ n ≤ N.of_nat (length cs)
    ∧ (1 ≤ t ≤ n →
       verifyDrug t s = Ok (drugs s !!. t, s)
       ∧ getDrugHistory t s = Ok (drugHistory s !!. t, s)
       ∧ ownerOf t s = Ok (_owners (erc721 s) !!. t, s))
    ∧ (¬ (1 ≤ t ≤ n) →
       verifyDrug t s = Err (Revert "Drug does not exist")
       ∧ getDrugHistory t s = Err (Revert "Drug does not exist")
       ∧ ownerOf t s = Err (Revert "ERC721: invalid token ID")).
Proof.
  intros Hroom s. exists (_tokenIdCounter s). split; [done|].
  destruct (sequential_run deployer cs Hroom) as [_ Hseq]. fold s in Hseq.
  destruct (enumerated_run cs (constructor deployer))
    as [_ Hcount]; [apply enumerated_constructor|cbn; lia|].
  fold s in Hcount. split; [cbn in Hcount; lia|]. split.
  - intros Hin. apply Hseq in Hin.
    rewrite verifyDrug_registered, getDrugHistory_registered by done.
    unfold registered in Hin. apply N.eqb_neq in Hin.
    unfold ownerOf, _ownerOf. unfold_monad. by rewrite Hin.
  - intros Hout. rewrite <- Hseq in Hout. unfold registered in Hout.
    assert (Hz : (_owners (erc721 s) !!. t =? 0) = true).
    { apply N.eqb_eq. by destruct (decide (_owners (erc721 s) !!. t = 0)). }
    unfold verifyDrug, getDrugHistory, ownerOf, _exists, _ownerOf.
    unfold_monad. by rewrite Hz.
Qed.

Lemma ids_are_sequential_witness :
  N.of_nat (length [(signer 1, register_sample)]) + 1 < modulus
  ∧ totalDrugs registered_once = Ok (1, registered_once)
  ∧ succeeded (verifyDrug 1 registered_once) = true
  ∧ verifyDrug 0 registered_once = Err (Revert "Drug does not exist")
  ∧ verifyDrug 2 registered_once = Err (Revert "Drug does not exist").
Proof.
  assert (Hroom : N.of_nat (length [(signer 1, register_sample)]) + 1
                  < modulus) by done.
  split; [exact Hroom|].
  destruct (ids_are_sequential 1 [(signer 1, register_sample)] 1 Hroom)
    as (n & Hn & _ & Hin & _).
  assert (n = 1) as -> by (vm_compute in Hn; congruence).
  split; [exact Hn|]. split.
  - destruct Hin as (Hv & _); [lia|]. exact (f_equal succeeded Hv).
  - destruct (ids_are_sequential 1 [(signer 1, register_sample)] 0 Hroom)
      as (n0 & Hn0 & _ & _ & Hout0).
    destruct (ids_are_sequential 1 [(signer 1, register_sample)] 2 Hroom)
      as (n2 & Hn2 & _ & _ & Hout2).
    assert (n0 = 1) as -> by (vm_compute in Hn0; congruence).
    assert (n2 = 1) as -> by (vm_compute in Hn2; congruence).
    split; [apply Hout0|apply Hout2]; lia.
Defined.

(** X2. totalDrugs counts the registrations that went through: in a
    deployed contract that has taken fewer than 2^256 - 1 calls it equals
    their number; failed calls, transfers, deactivations and role
    assignments leave it as it is. *)
Theorem total_counts_registrations deployer cs :
  N.of_nat (length cs) + 1 < modulus →
  let s := run cs (constructor deployer) in
  totalDrugs s = Ok (N.of_nat (registrations cs (constructor deployer)), s).
Proof.
  intros Hroom. cbn. unfold totalDrugs, gets. f_equal. f_equal.
  assert (Hgen : ∀ s0, enumerated s0 →
            _tokenIdCounter s0 + N.of_nat (length cs) + 1 < modulus →
            _tokenIdCounter (run cs s0)
            = _tokenIdCounter s0 + N.of_nat (registrations cs s0)).
  { clear. induction cs as [|[env c] cs IH]; intros s0 Henum Hroom.
    - cbn. lia.
    - rewrite run_cons. cbn [length registrations fst snd] in *.
      destruct (enumerated_exec env c s0 Henum) as [Henum' Hstep]; [lia|].
      rewrite IH by (done || lia). rewrite counter_exec.
      destruct (is_register c && accepted env c s0); [|lia].
      rewrite unchecked_incr_small by lia. lia. }
  rewrite Hgen; [done|apply enumerated_constructor|cbn; lia].
Qed.

Lemma total_counts_registrations_witness :
  totalDrugs deactivated = Ok (1, deactivated).
Proof.
  apply (total_counts_registrations 1
           [(signer 1, register_sample);
            (signer 1, TransferOwnership 1 2 "transfer");
            (signer 2, DeactivateDrug 1)]).
  done.
Defined.

(** *** Records and the batch code index *)

Lemma registerDrug_valid env b n m e h s id s' :
  registerDrug env b n m e h s = Ok (id, s') →
  b ≠ "" ∧ n ≠ "" ∧ m ≠ "" ∧ block_timestamp env < e.
Proof.
  intros Hok.
  destruct (registerDrug_trichotomy env b n m e h s)
    as [[_ Hr]|[(_ & _ & Hr)|(Hv & _)]].
  - by rewrite Hok in Hr.
  - by rewrite Hok in Hr.
  - repeat split; try (intros ->; apply Hv; auto).
    destruct (decide (block_timestamp env < e)); [done|].
    destruct Hv. do 3 right. lia.
Qed.

Lemma drugs_exec env c s t :
  registered s t →
  same_batch (drugs s !!. t) (drugs (exec env c s) !!. t).
Proof.
  intros Hreg. destruct (exec_cases env c s) as [->|Hok]; [done|].
  destruct c.
  - destruct Hok as [id Hok].
    apply registerDrug_ok in Hok
      as (_ & _ & Hfresh & _ & _ & -> & _).
    rewrite slot_insert_ne; [done|]. intros <-. by apply Hreg.
  - apply transferOwnership_ok in Hok
      as (_ & _ & _ & _ & _ & _ & _ & -> & _).
    rewrite slot_insert. by case_decide; subst.
  - apply deactivateDrug_ok in Hok as (_ & _ & ->). cbn.
    rewrite slot_insert. by case_decide; subst.
  - apply assignRole_ok in Hok as (_ & ->). done.
Qed.

Lemma same_batch_trans d1 d2 d3 :
  same_batch d1 d2 → same_batch d2 d3 → same_batch d1 d3.
Proof.
  unfold same_batch. intros (?&?&?&?&?&?) (?&?&?&?&?&?).
  repeat split; by etrans.
Qed.

(** X3. The registration data of a batch never changes: whatever calls
    follow, verifyDrug keeps returning a record with the same batch code,
    name, manufacturer, expiry, document reference and registration time;
    only the owner and the active flag can differ. *)
Theorem registration_data_is_permanent cs s t d :
  verifyDrug t s = Ok (d, s) →
  ∃ d', verifyDrug t (run cs s) = Ok (d', run cs s) ∧ same_batch d d'.
Proof.
  intros Hv.
  assert (Hreg : registered s t).
  { unfold verifyDrug, _exists, _ownerOf in Hv. unfold_monad.
    unfold registered. destruct (_owners (erc721 s) !!. t =? 0) eqn:E;
      [done|]. by apply N.eqb_neq. }
  rewrite verifyDrug_registered in Hv by done. injection Hv as <-.
  exists (drugs (run cs s) !!. t).
  split; [by apply verifyDrug_registered, registered_run|].
  revert s Hreg.
  induction cs as [|[env c] cs IH]; intros s Hreg; [done|].
  rewrite run_cons. eapply same_batch_trans; [by apply drugs_exec|].
  by apply IH, registered_exec.
Qed.

Lemma registration_data_is_permanent_witness :
  ∃ d', verifyDrug 1 deactivated = Ok (d', deactivated)
        ∧ Drug.batchId d' = "BTC-2024-001"
        ∧ Drug.expiryDate d' = 1731536000.
Proof.
  destruct (registration_data_is_permanent
              [(signer 1, TransferOwnership 1 2 "transfer");
               (signer 2, DeactivateDrug 1)] registered_once 1
              (drugs registered_once !!. 1))
    as (d' & Hv & Hb & _ & _ & He & _); [reflexivity|].
  exists d'. split; [exact Hv|]. split; [by rewrite <- Hb|by rewrite <- He].
Defined.

Lemma code_indexed_constructor deployer : code_indexed (constructor deployer).
Proof.
  split.
  - intros t. unfold registered. cbn. by rewrite slot_empty.
  - intros b. cbn. by rewrite slot_empty.
Qed.

Lemma code_indexed_exec env c s :
  enumerated s → code_indexed s → code_indexed (exec env c s).
Proof.
  intros (_ & Hids & _) [Hcode Hback].
  destruct (exec_cases env c s) as [->|Hok]; [by split|].
  unfold code_indexed, registered in *. destruct c.
  - destruct Hok as [id Hok].
    apply registerDrug_ok in Hok
      as (_ & Hto & Hfresh & Hnew & _ & -> & -> & _ & _ & _ & -> & _).
    split.
    + intros t. rewrite (slot_insert _ id t). case_decide as Ht.
      * subst t. intros _. by rewrite !slot_insert_eq.
      * intros Hreg. rewrite (slot_insert_ne _ id t) by done.
        rewrite slot_insert. case_decide as Hb; [|auto].
        rewrite Hb, Hcode in Hnew by done. apply Hids in Hreg. lia.
    + intros b. rewrite (slot_insert _ batchId b). case_decide as Hb.
      * subst b. intros _. by rewrite !slot_insert_eq.
      * intros Hne. destruct (Hback b Hne) as [Hreg Hbb].
        assert (id ≠ batchIdToTokenId s !!. b) by congruence.
        by rewrite !slot_insert_ne.
  - apply transferOwnership_ok in Hok
      as (Hfrom & _ & Hto & _ & _ & _ & _ & -> & -> & _ & _ & _ & -> & _).
    split.
    + intros t. rewrite !slot_insert. case_decide as Ht.
      * subst t. intros _. by apply Hcode.
      * apply Hcode.
    + intros b Hne. destruct (Hback b Hne) as [Hreg Hbb].
      rewrite !slot_insert.
      case_decide as Ht; [rewrite Ht; split; [done|exact Hbb]|done].
  - apply deactivateDrug_ok in Hok as (_ & _ & ->). cbn. split.
    + intros t Hreg. rewrite slot_insert. case_decide as Ht; [|auto].
      subst t. by apply Hcode.
    + intros b Hne. destruct (Hback b Hne) as [Hreg Hbb].
      split; [done|]. rewrite slot_insert.
      case_decide as Ht; [rewrite Ht; exact Hbb|done].
  - apply assignRole_ok in Hok as (_ & ->). by split.
Qed.

Lemma code_indexed_run deployer cs :
  N.of_nat (length cs) + 1 < modulus →
  code_indexed (run cs (constructor deployer)).
Proof.
  apply run_invariant; [apply code_indexed_constructor|].
  intros env c s _ Henum _. by apply code_indexed_exec.
Qed.

(** *** Stored records passed the checks *)

Lemma records_valid_exec env c s :
  custody_inv s → records_valid s → records_valid (exec env c s).
Proof.
  intros Hinv Hval t Hreg'.
  destruct (decide (registered s t)) as [Hreg|Hnew].
  - rewrite exec_head_history by done.
    destruct (drugs_exec env c s t Hreg) as (Hb & Hn & Hm & He & _ & Ht).
    destruct (Hval t Hreg) as (? & ? & ? & ? & ?). cbn.
    rewrite <- Hb, <- Hn, <- Hm, <- He, <- Ht. done.
  - destruct (exec_cases env c s) as [Hsame|Hok];
      [by rewrite Hsame in Hreg'|].
    unfold registered in *. destruct c.
    + destruct Hok as [id Hok].
      destruct (registerDrug_valid _ _ _ _ _ _ _ _ _ Hok) as (?&?&?&?).
      apply registerDrug_ok in Hok
        as (_ & _ & _ & _ & _ & Hd & _ & Hh & _ & _ & Ho & _).
      rewrite Ho in Hreg'. rewrite Hd, Hh.
      rewrite slot_insert in Hreg'. case_decide as Ht; [subst t|done].
      rewrite !slot_insert_eq. cbn.
      destruct (Hinv id) as [Hlog _]. by rewrite Hlog.
    + apply transferOwnership_ok in Hok
        as (Hfrom & _ & _ & _ & _ & _ & _ & _ & _ & _ & _ & _ & Ho & _).
      rewrite Ho, slot_insert in Hreg'. case_decide; by subst.
    + apply deactivateDrug_ok in Hok as (_ & _ & Hs).
      by rewrite Hs in Hreg'.
    + apply assignRole_ok in Hok as (_ & Hs). by rewrite Hs in Hreg'.
Qed.

Lemma records_valid_reachable s : reachable s → records_valid s.
Proof.
  induction 1 as [deployer|env c s Hs IH].
  - intros t Hreg. unfold registered in Hreg. cbn in Hreg.
    by rewrite slot_empty in Hreg.
  - by apply records_valid_exec; [apply custody_inv_reachable|].
Qed.

Lemma verifyDrug_Ok t s d s' :
  verifyDrug t s = Ok (d, s') →
  registered s t ∧ d = drugs s !!. t ∧ s' = s.
Proof.
  unfold verifyDrug, _exists, _ownerOf. unfold_monad. unfold registered.
  destruct (_owners (erc721 s) !!. t =? 0) eqn:E; [done|].
  intros [= <- <-]. by apply N.eqb_neq in E.
Qed.

Lemma verifyDrugByBatchId_spec b s :
  verifyDrugByBatchId b s
  = if batchIdToTokenId s !!. b =? 0
    then Err (Revert "Batch ID does not exist")
    else Ok (drugs s !!. (batchIdToTokenId s !!. b), s).
Proof.
  unfold verifyDrugByBatchId. unfold_monad.
  by destruct (batchIdToTokenId s !!. b =? 0).
Qed.

(** X4. In every state a deployed contract reaches by fewer than
    2^256 - 1 calls, batch codes identify batches: verifyDrugByBatchId
    returns the record verifyDrug returns for the one registered batch that
    carries the code, no two registered batches share a code, and a code
    no registered batch carries is refused with "Batch ID does not exist".
    A code stays taken for good: a registration with valid fields is
    refused with "Batch ID already exists" exactly when a registered
    batch, active or not, carries the code. *)
Theorem batch_codes_identify deployer cs :
  N.of_nat (length cs) + 1 < modulus →
  let s := run cs (constructor deployer) in
  (∀ t d, verifyDrug t s = Ok (d, s) →
     verifyDrugByBatchId (Drug.batchId d) s = Ok (d, s))
  ∧ (∀ b d, verifyDrugByBatchId b s = Ok (d, s) →
       Drug.batchId d = b ∧ ∃ t, t ≠ 0 ∧ verifyDrug t s = Ok (d, s))
  ∧ (∀ t1 t2 d1 d2,
       verifyDrug t1 s = Ok (d1, s) → verifyDrug t2 s = Ok (d2, s) →
       Drug.batchId d1 = Drug.batchId d2 → t1 = t2)
  ∧ (∀ b, (∀ t d, verifyDrug t s = Ok (d, s) → Drug.batchId d ≠ b) →
       verifyDrugByBatchId b s = Err (Revert "Batch ID does not exist"))
  ∧ (∀ env b n m e h,
       n ≠ "" → m ≠ "" → block_timestamp env < e →
       registerDrug env b n m e h s = Err (Revert "Batch ID already exists")
       ↔ ∃ t d, verifyDrug t s = Ok (d, s) ∧ Drug.batchId d = b).
Proof.
  intros Hroom s.
  destruct (code_indexed_run deployer cs Hroom) as [Hcode Hback].
  destruct (sequential_run deployer cs Hroom) as [_ Hseq].
  fold s in Hcode, Hback, Hseq.
  assert (Hzero : ∀ t, registered s t → t ≠ 0).
  { intros t Ht%Hseq. lia. }
  split; [|split; [|split; [|split]]].
  - intros t d (Hreg & -> & _)%verifyDrug_Ok.
    rewrite verifyDrugByBatchId_spec, Hcode by done.
    pose proof (Hzero t Hreg) as Ht. apply N.eqb_neq in Ht. by rewrite Ht.
  - intros b d. rewrite verifyDrugByBatchId_spec.
    destruct (batchIdToTokenId s !!. b =? 0) eqn:E; [done|].
    apply N.eqb_neq in E. intros [= <-].
    destruct (Hback b E) as [Hreg Hb]. split; [done|].
    exists (batchIdToTokenId s !!. b). split; [done|].
    by apply verifyDrug_registered.
  - intros t1 t2 d1 d2 (Hr1 & -> & _)%verifyDrug_Ok
      (Hr2 & -> & _)%verifyDrug_Ok Hb.
    rewrite <- (Hcode t1 Hr1), <- (Hcode t2 Hr2). by rewrite Hb.
  - intros b Hnone. rewrite verifyDrugByBatchId_spec.
    destruct (batchIdToTokenId s !!. b =? 0) eqn:E; [done|].
    apply N.eqb_neq in E. destruct (Hback b E) as [Hreg Hb].
    by destruct (Hnone _ _ (verifyDrug_registered _ _ Hreg)).
  - intros env b n m e h Hn Hm He.
    pose proof (registerDrug_trichotomy env b n m e h s) as Hc. cbn in Hc.
    split.
    + intros Herr. rewrite Herr in Hc.
      destruct Hc as [[_ Hr]|[(_ & Hk & _)|(_ & _ & [Hr|Hr])]]; try done.
      destruct (Hback b Hk) as [Hreg Hb].
      eexists _, _. split; [by apply verifyDrug_registered|done].
    + intros (t & d & (Hreg & -> & _)%verifyDrug_Ok & <-).
      pose proof (Hzero t Hreg) as Ht. rewrite <- (Hcode t Hreg) in Ht.
      destruct Hc as [[Hi _]|[(_ & _ & Hr)|(_ & Hk & _)]]; [|done|done].
      destruct Hi as [Hi|[?|[?|?]]]; try done; try lia.
      assert (Hs : reachable s) by apply reachable_run, reachable_constructor.
      by destruct (records_valid_reachable s Hs t Hreg) as [Hb _].
Qed.

End DrugAuthMore.
